(** * triangulizor: a shallow embedding of [triangulizor.py]

    The program cuts an RGB image into square tiles, samples four
    triangular regions of every tile, picks a diagonal from the colour
    distances of adjacent regions and paints two flat triangles.

    Python integers are unbounded, so they are [Z]; [/] on integers is
    floor division ([Z.div]) and raises on a zero divisor; [%] is
    [Z.modulo].  Exceptions are values of [exn], carried by [result].
    The pixel buffer and the drawing context share one image, which is
    threaded through the monad [M] together with a trace of accesses.
    The calls to [logging] change nothing the program computes and are
    left out; [isinstance(image, Image.Image)] holds by typing, while
    [isinstance(tile_size, int)] is checked: a [long] is no [int]. *)

From Stdlib Require Import String Ascii DecimalString.
From Stdlib Require Import DecimalPos DecimalZ.
From Stdlib Require Import ZArith List Lia Bool FinFun Permutation Sorted.
Import ListNotations.
Open Scope Z_scope.

(** ** Exceptions and fallible results *)

Inductive exn : Set :=
| AssertionError
| ZeroDivisionError
| TypeError
| IndexError
| ValueError
| UnboundLocalError.

Definition result (A : Type) : Type := (exn + A)%type.

Definition ok {A} (a : A) : result A := inr a.
Definition raise {A} (e : exn) : result A := inl e.

Definition rbind {A B} (r : result A) (k : A -> result B) : result B :=
  match r with
  | inl e => inl e
  | inr a => k a
  end.

Declare Scope result_scope.
Delimit Scope result_scope with result.
Notation "x <~ r ;; k" := (rbind r (fun x => k))
  (at level 61, r at next level, right associativity) : result_scope.
Notation "' p <~ r ;; k" := (rbind r (fun p => k))
  (at level 61, p pattern, r at next level, right associativity) : result_scope.

(** Integer [a / b] of Python 2. *)
Definition py_div (a b : Z) : result Z :=
  if b =? 0 then raise ZeroDivisionError else ok (a / b).

(** A Python 2 integer is an [int], a machine word, or a [long];
    arithmetic and comparison go by the value, [isinstance(n, int)]
    by the type.  [PyInt z] is the [int] of value [z], which exists
    when [z] fits a machine word; what is proved of every [PyInt z]
    holds of those. *)
Inductive py_integer : Set :=
| PyInt (z : Z)
| PyLong (z : Z).

Definition value (n : py_integer) : Z :=
  match n with
  | PyInt z | PyLong z => z
  end.

(** [isinstance(n, int)] *)
Definition isinstance_int (n : py_integer) : bool :=
  match n with
  | PyInt _ => true
  | PyLong _ => false
  end.

(** [reduce(f, l)] without an initial value. *)
Definition reduce {A} (f : A -> A -> A) (l : list A) : result A :=
  match l with
  | [] => raise TypeError
  | x :: xs => ok (fold_left f xs x)
  end.

(** ** Color Math *)

Definition color : Type := (Z * Z * Z)%type.

Definition color_reducer (c1 c2 : color) : color :=
  let '(r1, g1, b1) := c1 in
  let '(r2, g2, b2) := c2 in
  (r1 + r2, g1 + g2, b1 + b2).

Definition get_average_color (colors : list color) : result color :=
  ('(tr, tg, tb) <~ reduce color_reducer colors ;;
   let total := Z.of_nat (length colors) in
   r <~ py_div tr total ;;
   g <~ py_div tg total ;;
   b <~ py_div tb total ;;
   ok (r, g, b))%result.

Definition get_color_dist (c1 c2 : color) : color :=
  let '(r1, g1, b1) := c1 in
  let '(r2, g2, b2) := c2 in
  (Z.abs (r1 - r2), Z.abs (g1 - g2), Z.abs (b1 - b2)).

(** ['%d'] of an integer. *)
Definition fmt_d (z : Z) : string := NilZero.string_of_int (Z.to_int z).

Definition make_color (c : color) : string :=
  let '(r, g, b) := c in
  ("rgb(" ++ fmt_d r ++ ", " ++ fmt_d g ++ ", " ++ fmt_d b ++ ")")%string.

(** Tuples compare lexicographically; [==] is component-wise. *)
Definition color_eqb (a b : color) : bool :=
  let '(r1, g1, b1) := a in
  let '(r2, g2, b2) := b in
  (r1 =? r2) && (g1 =? g2) && (b1 =? b2).

Definition color_leb (a b : color) : bool :=
  let '(r1, g1, b1) := a in
  let '(r2, g2, b2) := b in
  (r1 <? r2) || ((r1 =? r2) && ((g1 <? g2) || ((g1 =? g2) && (b1 <=? b2)))).

Definition color_le (a b : color) : Prop := color_leb a b = true.

(** [sorted(l)]: a stable insertion sort for the tuple order. *)
Fixpoint insert (x : color) (l : list color) : list color :=
  match l with
  | [] => [x]
  | y :: l' => if color_leb x y then x :: l else y :: insert x l'
  end.

Definition sorted (l : list color) : list color := fold_right insert [] l.

(** [l[0]] *)
Definition first {A} (l : list A) : result A :=
  match l with
  | [] => raise IndexError
  | x :: _ => ok x
  end.

(** ** Images

    The imaging library is an external collaborator.  An image knows
    its size and its pixels; reading outside the grid raises.  The
    images are RGB: every channel of every pixel is a byte. *)

Definition is_rgb (c : color) : bool :=
  let '(r, g, b) := c in
  (0 <=? r) && (r <=? 255) && (0 <=? g) && (g <=? 255)
  && (0 <=? b) && (b <=? 255).

Record Image : Type := mkImage {
  width : Z;
  height : Z;
  getdata : Z -> Z -> color;
  rgb_bytes : forall x y, is_rgb (getdata x y) = true
}.

Definition size (im : Image) : Z * Z := (width im, height im).

Definition in_bounds (im : Image) (x y : Z) : bool :=
  (0 <=? x) && (x <? width im) && (0 <=? y) && (y <? height im).

Definition getpixel (im : Image) (x y : Z) : option color :=
  if in_bounds im x y then Some (getdata im x y) else None.

Definition crop_rgb (im : Image) (x y : Z) :
  is_rgb (match getpixel im x y with
          | Some c => c
          | None => (0, 0, 0)
          end) = true.
Proof.
  unfold getpixel. destruct (in_bounds im x y); [apply rgb_bytes | reflexivity].
Qed.

(** [image.crop(box)]: a copy of the rectangle; what lies outside the
    source is black, and an inverted box is empty. *)
Definition crop (im : Image) (box : Z * Z * Z * Z) : Image :=
  let '(x0, y0, x1, y1) := box in
  let x1 := if x1 <? x0 then x0 else x1 in
  let y1 := if y1 <? y0 then y0 else y1 in
  mkImage (x1 - x0) (y1 - y0)
    (fun x y =>
       match getpixel im (x0 + x) (y0 + y) with
       | Some c => c
       | None => (0, 0, 0)
       end)
    (fun x y => crop_rgb im (x0 + x) (y0 + y)).

(** ** Ranges *)

(** [xrange(start, stop)] *)
Definition xrange (start stop : Z) : list Z :=
  map (fun i => start + Z.of_nat i) (seq 0 (Z.to_nat (stop - start))).

(** [xrange(start, stop, step)] *)
Definition xrange_step (start stop step : Z) : result (list Z) :=
  if step =? 0 then raise ValueError
  else
    let n := if 0 <? step
             then (stop - start + step - 1) / step
             else (start - stop - step - 1) / (- step) in
    ok (map (fun i => start + Z.of_nat i * step) (seq 0 (Z.to_nat n))).

Fixpoint rmapM {A B} (f : A -> result B) (l : list A) : result (list B) :=
  match l with
  | [] => ok []
  | a :: l' => (b <~ f a ;; bs <~ rmapM f l' ;; ok (b :: bs))%result
  end.

(** ** The state of a run

    [pix] and [draw] are two views of the same image, so reads that
    follow a draw see it.  The trace lists, oldest first, every pixel
    read and every polygon drawn. *)

Inductive event : Type :=
| PixelRead (x y : Z)
| Polygon (xy : list (Z * Z)) (fill : string).

Record state : Type := mkState {
  buffer : Image;
  trace : list event
}.

Definition M (A : Type) : Type := state -> result A * state.

Definition ret {A} (a : A) : M A := fun st => (ok a, st).

Definition bind {A B} (m : M A) (k : A -> M B) : M B :=
  fun st =>
    match m st with
    | (inl e, st') => (inl e, st')
    | (inr a, st') => k a st'
    end.

Definition lift {A} (r : result A) : M A := fun st => (r, st).

Declare Scope M_scope.
Delimit Scope M_scope with M.
Notation "x <- m ;; k" := (bind m (fun x => k))
  (at level 61, m at next level, right associativity) : M_scope.
Notation "' p <- m ;; k" := (bind m (fun p => k))
  (at level 61, p pattern, m at next level, right associativity) : M_scope.

Definition py_assert (b : bool) : M unit :=
  lift (if b then ok tt else raise AssertionError).

Definition log (e : event) (st : state) : state :=
  mkState (buffer st) (trace st ++ [e]).

(** [pix = image.load()] and [draw = ImageDraw.Draw(image)] *)
Definition load (im : Image) : M unit :=
  fun st => (ok tt, mkState im (trace st)).

Definition current : M Image := fun st => (ok (buffer st), st).

(** [pix[x, y]] *)
Definition pix (x y : Z) : M color :=
  fun st =>
    match getpixel (buffer st) x y with
    | Some c => (ok c, log (PixelRead x y) st)
    | None => (raise IndexError, log (PixelRead x y) st)
    end.

Fixpoint mapM {A B} (f : A -> M B) (l : list A) : M (list B) :=
  match l with
  | [] => ret []
  | a :: l' => (b <- f a ;; bs <- mapM f l' ;; ret (b :: bs))%M
  end.

Fixpoint forM_ {A} (l : list A) (f : A -> M unit) : M unit :=
  match l with
  | [] => ret tt
  | a :: l' => (_ <- f a ;; forM_ l' f)%M
  end.

(** ** Region Sampler *)

(** The pixels each loop nest of [triangle_colors] visits, in order. *)
Definition north_coords (tile_x tile_y tile_size : Z) : list (Z * Z) :=
  let quad_size := tile_size / 2 in
  flat_map (fun y =>
              let x_off := y - tile_y in
              map (fun x => (x, y))
                  (xrange (tile_x + x_off) (tile_x + tile_size - x_off)))
           (xrange tile_y (tile_y + quad_size)).

Definition south_coords (tile_x tile_y tile_size : Z) : list (Z * Z) :=
  let quad_size := tile_size / 2 in
  flat_map (fun y =>
              let x_off := tile_y + tile_size - y in
              map (fun x => (x, y))
                  (xrange (tile_x + x_off) (tile_x + tile_size - x_off)))
           (xrange (tile_y + quad_size) (tile_y + tile_size)).

Definition east_coords (tile_x tile_y tile_size : Z) : list (Z * Z) :=
  let quad_size := tile_size / 2 in
  flat_map (fun x =>
              let y_off := x - tile_x in
              map (fun y => (x, y))
                  (xrange (tile_y + y_off) (tile_y + tile_size - y_off)))
           (xrange tile_x (tile_x + quad_size)).

Definition west_coords (tile_x tile_y tile_size : Z) : list (Z * Z) :=
  let quad_size := tile_size / 2 in
  flat_map (fun x =>
              let y_off := tile_x + tile_size - x in
              map (fun y => (x, y))
                  (xrange (tile_y + y_off) (tile_y + tile_size - y_off)))
           (xrange (tile_x + quad_size) (tile_x + tile_size)).

Definition sample (coords : list (Z * Z)) : M (list color) :=
  mapM (fun '(x, y) => pix x y) coords.

(** The four lists [north], [east], [south], [west] as the loops leave
    them (they are filled in the order north, south, east, west). *)
Definition triangle_regions (tile_x tile_y tile_size : Z)
  : M (list color * list color * list color * list color) :=
  (north <- sample (north_coords tile_x tile_y tile_size) ;;
   south <- sample (south_coords tile_x tile_y tile_size) ;;
   east <- sample (east_coords tile_x tile_y tile_size) ;;
   west <- sample (west_coords tile_x tile_y tile_size) ;;
   ret (north, east, south, west))%M.

Definition triangle_colors (tile_x tile_y tile_size : Z)
  : M (color * color * color * color) :=
  ('(north, east, south, west) <- triangle_regions tile_x tile_y tile_size ;;
   lift (n <~ get_average_color north ;;
         e <~ get_average_color east ;;
         s <~ get_average_color south ;;
         w <~ get_average_color west ;;
         ok (n, e, s, w))%result)%M.

(** ** Split Selector *)

Inductive Split : Set := Right | Left.

(** Lines 43-56 of [process_tile]: the four distances, the smallest of
    them, and the two membership tests.  A [split] left unbound would
    surface at its first use. *)
Definition choose_split (n e s w : color) : result Split :=
  let d_ne := get_color_dist n e in
  let d_nw := get_color_dist n w in
  let d_se := get_color_dist s e in
  let d_sw := get_color_dist s w in
  (closest <~ first (sorted [d_ne; d_nw; d_se; d_sw]) ;;
   if color_eqb closest d_ne || color_eqb closest d_sw then ok Right
   else if color_eqb closest d_nw || color_eqb closest d_se then ok Left
   else raise UnboundLocalError)%result.

(** ** Tile Renderer and Image Driver *)

(** The imaging library parses the fill before it draws.  Of the
    strings [make_color] builds it reads those whose three numbers are
    unsigned decimals, and raises on a minus sign; a channel above 255
    is clipped when the ink is made. *)
Definition fill_parses (col : color) : bool :=
  let '(r, g, b) := col in
  (0 <=? r) && (0 <=? g) && (0 <=? b).

Section Drawing.

(** [draw.polygon(xy, fill)] of the imaging library: the image after
    the polygon has been filled. *)
Variable polygon : list (Z * Z) -> string -> Image -> Image.

Definition draw_triangle (a b c : Z * Z) (col : color) : M unit :=
  fun st =>
    let fill := make_color col in
    if fill_parses col
    then (ok tt, log (Polygon [a; b; c] fill)
                     (mkState (polygon [a; b; c] fill (buffer st)) (trace st)))
    else (raise ValueError, st).

Definition draw_triangles (tile_x tile_y tile_size : Z) (split : Split)
           (top_color bottom_color : color) : M unit :=
  let nw := (tile_x, tile_y) in
  let ne := (tile_x + tile_size - 1, tile_y) in
  let se := (tile_x + tile_size - 1, tile_y + tile_size) in
  let sw := (tile_x, tile_y + tile_size) in
  match split with
  | Left =>
      (_ <- draw_triangle nw ne se top_color ;;
       draw_triangle nw sw se bottom_color)%M
  | Right =>
      (_ <- draw_triangle sw nw ne top_color ;;
       draw_triangle sw se ne bottom_color)%M
  end.

Definition process_tile (tile_x tile_y tile_size : Z) : M unit :=
  ('(n, e, s, w) <- triangle_colors tile_x tile_y tile_size ;;
   split <- lift (choose_split n e s w) ;;
   '(top_color, bottom_color) <-
      lift (match split with
            | Right =>
                (t <~ get_average_color [n; e] ;;
                 b <~ get_average_color [s; w] ;;
                 ok (t, b))%result
            | Left =>
                (t <~ get_average_color [n; w] ;;
                 b <~ get_average_color [s; e] ;;
                 ok (t, b))%result
            end) ;;
   draw_triangles tile_x tile_y tile_size split top_color bottom_color)%M.

Definition prep_image (image : Image) (tile_size : Z) : result Image :=
  let '(w, h) := size image in
  (x_tiles <~ py_div w tile_size ;;
   y_tiles <~ py_div h tile_size ;;
   let new_w := x_tiles * tile_size in
   let new_h := y_tiles * tile_size in
   if (new_w =? w) && (new_h =? h) then ok image
   else
     let crop_bounds := (0, 0, new_w, new_h) in
     ok (crop image crop_bounds))%result.

Definition iter_tiles (image : Image) (tile_size : Z)
  : result (list (Z * Z)) :=
  let '(w, h) := size image in
  (ys <~ xrange_step 0 h tile_size ;;
   rows <~ rmapM (fun y =>
                    xs <~ xrange_step 0 w tile_size ;;
                    ok (map (fun x => (x, y)) xs)) ys ;;
   ok (concat rows))%result.

(** The second assertion asks for an [int], which a [long] is not,
    and for an even value; what follows goes by the value. *)
Definition triangulize_body (image : Image) (tile_size : py_integer)
  : M Image :=
  (_ <- py_assert (isinstance_int tile_size
                   && (value tile_size mod 2 =? 0)) ;;
   let tile_size := value tile_size in
   image <- lift (prep_image image tile_size) ;;
   _ <- load image ;;
   tiles <- lift (iter_tiles image tile_size) ;;
   _ <- forM_ tiles (fun '(x, y) => process_tile x y tile_size) ;;
   current)%M.

Definition triangulize (image : Image) (tile_size : py_integer)
  : result Image * list event :=
  let '(r, st) := triangulize_body image tile_size (mkState image []) in
  (r, trace st).

End Drawing.

(** Test images and a drawing back end that leaves the image alone. *)
Definition red : color := (255, 0, 0).

(** A channel outside a byte is clipped when an image is made. *)
Definition clip (c : color) : color :=
  let '(r, g, b) := c in
  (Z.max 0 (Z.min 255 r), Z.max 0 (Z.min 255 g), Z.max 0 (Z.min 255 b)).

Definition clip_rgb (c : color) : is_rgb (clip c) = true.
Proof.
  destruct c as [[r g] b]. unfold is_rgb, clip.
  rewrite !andb_true_iff, !Z.leb_le. lia.
Qed.

(** [Image.new('RGB', (w, h), c)] *)
Definition solid (w h : Z) (c : color) : Image :=
  mkImage w h (fun _ _ => clip c) (fun _ _ => clip_rgb c).

Definition no_draw : list (Z * Z) -> string -> Image -> Image :=
  fun _ _ im => im.

(** ** The specification's wording, for comparison *)

(** The split selector as the specification words it: among the four
    candidates, taken in the order (N,E), (N,W), (S,E), (S,W), the first
    one that is minimal decides. *)
Inductive pair_id : Set := NE | NW | SE | SW.

Definition candidates (n e s w : color) : list (pair_id * color) :=
  [(NE, get_color_dist n e); (NW, get_color_dist n w);
   (SE, get_color_dist s e); (SW, get_color_dist s w)].

Definition is_minimal (c : color) (cands : list (pair_id * color)) : bool :=
  forallb (fun pc => color_leb c (snd pc)) cands.

Definition first_minimal (cands : list (pair_id * color)) : option pair_id :=
  option_map fst (find (fun pc => is_minimal (snd pc) cands) cands).

Definition spec_split (n e s w : color) : option Split :=
  match first_minimal (candidates n e s w) with
  | Some NE | Some SW => Some Right
  | Some NW | Some SE => Some Left
  | None => None
  end.

(** The regions of a tile as one list, and the tile itself. *)
Definition all_coords (tile_x tile_y tile_size : Z) : list (Z * Z) :=
  north_coords tile_x tile_y tile_size ++ east_coords tile_x tile_y tile_size
  ++ south_coords tile_x tile_y tile_size ++ west_coords tile_x tile_y tile_size.

Definition in_tile (tile_x tile_y tile_size : Z) (p : Z * Z) : Prop :=
  tile_x <= fst p < tile_x + tile_size /\ tile_y <= snd p < tile_y + tile_size.

Definition coord_eq_dec (p q : Z * Z) : {p = q} + {p <> q}.
Proof. decide equality; apply Z.eq_dec. Defined.

(** How many of the sampled pixels are [p]. *)
Definition times_sampled (tile_x tile_y tile_size : Z) (p : Z * Z) : nat :=
  count_occ coord_eq_dec (all_coords tile_x tile_y tile_size) p.

(** "The four regions partition the tile": every pixel of the tile is
    sampled exactly once and nothing else is sampled. *)
Definition partitions_tile (tile_x tile_y tile_size : Z) : Prop :=
  (forall p, in_tile tile_x tile_y tile_size p ->
             times_sampled tile_x tile_y tile_size p = 1%nat) /\
  (forall p, In p (all_coords tile_x tile_y tile_size) ->
             in_tile tile_x tile_y tile_size p).

(** Runs that are not stopped by an [assert]. *)
Definition passes {A} (r : result A) : Prop := r <> inl AssertionError.

Definition never_asserts {A} (m : M A) : Prop :=
  forall st, passes (fst (m st)).

(** ** Command line *)

(** What the type function of [--tile-size] can raise: the error it
    builds itself, or whatever [int] raised. *)
Inductive cli_error : Type :=
| ArgumentTypeError (msg : string)
| Uncaught (e : exn).

Section CommandLine.

(** [int(x)] on a string is the interpreter's own conversion; it
    returns an [int] when the number fits one and a [long] otherwise. *)
Variable py_int : string -> result py_integer.

Definition even_int (x : string) : cli_error + py_integer :=
  match py_int x with
  | inl e => inl (Uncaught e)
  | inr x =>
      if negb (value x mod 2 =? 0)
      then inl (ArgumentTypeError "must be an even number")
      else inr x
  end.

End CommandLine.

(** ** Vocabulary of the statements *)

Definition red_of (c : color) : Z := fst (fst c).
Definition green_of (c : color) : Z := snd (fst c).
Definition blue_of (c : color) : Z := snd c.

Definition Zsum (l : list Z) : Z := fold_right Z.add 0 l.

(** Every component of [c] lies between those of [lo] and [hi]. *)
Definition color_between (lo hi c : color) : Prop :=
  red_of lo <= red_of c <= red_of hi /\
  green_of lo <= green_of c <= green_of hi /\
  blue_of lo <= blue_of c <= blue_of hi.

Definition transpose (p : Z * Z) : Z * Z := (snd p, fst p).

(** The pixel reads of a list of positions, and the colours they find. *)
Definition reads (coords : list (Z * Z)) : list event :=
  map (fun p => PixelRead (fst p) (snd p)) coords.

Definition pixels (im : Image) (coords : list (Z * Z)) : list color :=
  map (fun p => getdata im (fst p) (snd p)) coords.

(** The positions [triangle_colors] reads, in the order it reads them. *)
Definition read_order (tile_x tile_y tile_size : Z) : list (Z * Z) :=
  north_coords tile_x tile_y tile_size ++ south_coords tile_x tile_y tile_size
  ++ east_coords tile_x tile_y tile_size ++ west_coords tile_x tile_y tile_size.

Definition is_polygon (e : event) : bool :=
  match e with
  | Polygon _ _ => true
  | PixelRead _ _ => false
  end.

(** What one tile adds to the trace: its reads, then its two polygons. *)
Definition tile_events (tile_size : Z) (t : (Z * Z) * (event * event))
  : list event :=
  reads (read_order (fst (fst t)) (snd (fst t)) tile_size)
  ++ [fst (snd t); snd (snd t)].

(** The four distances of [process_tile] and what it is to be least. *)
Definition distances (n e s w : color) : list color :=
  [get_color_dist n e; get_color_dist n w;
   get_color_dist s e; get_color_dist s w].

Definition is_least (d : color) (ds : list color) : Prop :=
  forall c, In c ds -> color_le d c.

(** Row-major order of tile corners: by [y], then by [x]. *)
Definition tile_before (p q : Z * Z) : Prop :=
  snd p < snd q \/ (snd p = snd q /\ fst p < fst q).

(** A drawing back end that leaves the size of the image alone. *)
Definition keeps_size (polygon : list (Z * Z) -> string -> Image -> Image)
  : Prop :=
  forall xy fill im,
    width (polygon xy fill im) = width im /\
    height (polygon xy fill im) = height im.

(** A string in which the character [sep] does not occur. *)
Fixpoint free_of (sep : ascii) (s : string) : Prop :=
  match s with
  | EmptyString => True
  | String a s' => a <> sep /\ free_of sep s'
  end.

(** * Properties *)

(** ** Color Math *)

Example make_color_red : make_color (255, 0, 0) = "rgb(255, 0, 0)"%string.
Proof. reflexivity. Qed.

Example average_floor : get_average_color [(1, 2, 3); (2, 2, 4)] = ok (1, 2, 3).
Proof. reflexivity. Qed.

Lemma rbind_ok {A B} (a : A) (k : A -> result B) : rbind (ok a) k = k a.
Proof. reflexivity. Qed.

Lemma py_div_nonzero a b : b <> 0 -> py_div a b = ok (a / b).
Proof.
  intros Hb. unfold py_div.
  destruct (Z.eqb_spec b 0); [contradiction | reflexivity].
Qed.

(** C8: the average of the one-element sequence [[c]] is [c], and the
    average of two equal colours [[c; c]] is [c]. *)
Theorem average_single_and_equal_pair (c : color) :
  get_average_color [c] = ok c /\ get_average_color [c; c] = ok c.
Proof.
  destruct c as [[r g] b]. split.
  - unfold get_average_color; simpl.
    unfold py_div; simpl. now rewrite !Z.div_1_r.
  - unfold get_average_color; simpl.
    unfold py_div; simpl.
    replace (r + r) with (r * 2) by lia.
    replace (g + g) with (g * 2) by lia.
    replace (b + b) with (b * 2) by lia.
    now rewrite (Z.div_mul r 2), (Z.div_mul g 2), (Z.div_mul b 2).
Qed.

Lemma get_color_dist_sym a b : get_color_dist a b = get_color_dist b a.
Proof.
  destruct a as [[r1 g1] b1], b as [[r2 g2] b2]; simpl.
  f_equal; [f_equal |]; lia.
Qed.

Lemma get_color_dist_self a : get_color_dist a a = (0, 0, 0).
Proof.
  destruct a as [[r g] b]; simpl. now rewrite !Z.sub_diag.
Qed.

(** ** Image Driver: validation *)

Section Validation.

Variable polygon : list (Z * Z) -> string -> Image -> Image.

Lemma triangulize_odd image tile_size :
  value tile_size mod 2 <> 0 ->
  triangulize polygon image tile_size = (raise AssertionError, []).
Proof.
  intros Hodd. unfold triangulize, triangulize_body, bind, py_assert, lift.
  destruct (Z.eqb_spec (value tile_size mod 2) 0); [contradiction |].
  rewrite andb_false_r. reflexivity.
Qed.

Lemma triangulize_long image tile_size :
  isinstance_int tile_size = false ->
  triangulize polygon image tile_size = (raise AssertionError, []).
Proof.
  intros Hlong. unfold triangulize, triangulize_body, bind, py_assert, lift.
  rewrite Hlong. reflexivity.
Qed.

Lemma triangulize_even image tile_size :
  tile_size mod 2 = 0 ->
  triangulize polygon image (PyInt tile_size) =
    (let '(r, st) :=
       (image' <- lift (prep_image image tile_size) ;;
        _ <- load image' ;;
        tiles <- lift (iter_tiles image' tile_size) ;;
        _ <- forM_ tiles (fun '(x, y) => process_tile polygon x y tile_size) ;;
        current)%M (mkState image []) in
     (r, trace st)).
Proof.
  intros Heven. unfold triangulize, triangulize_body, py_assert.
  cbn [isinstance_int value andb]. rewrite Heven. reflexivity.
Qed.

(** C7: an odd [tile_size], 3 among them, be it an [int] or a [long],
    is refused by the assertion before any pixel of the image is read
    or drawn. *)
Theorem odd_tile_size_rejected image tile_size :
  Z.odd (value tile_size) = true ->
  triangulize polygon image tile_size = (raise AssertionError, []).
Proof.
  intros Hodd. apply triangulize_odd.
  rewrite Zmod_odd, Hodd. discriminate.
Qed.

(** C9: with [tile_size = 0] the assertion passes (0 is an [int], and
    even) and the run stops in [prep_image] on the division by zero,
    before any tile is processed: nothing was read and nothing drawn. *)
Theorem zero_tile_size_divides_by_zero image :
  (isinstance_int (PyInt 0) && (value (PyInt 0) mod 2 =? 0)) = true /\
  prep_image image 0 = raise ZeroDivisionError /\
  triangulize polygon image (PyInt 0) = (raise ZeroDivisionError, []).
Proof.
  split; [reflexivity | split]; reflexivity.
Qed.

End Validation.

(** ** Ranges *)

Lemma in_xrange a b x : In x (xrange a b) <-> a <= x < b.
Proof.
  unfold xrange. rewrite in_map_iff. split.
  - intros (i & <- & Hi). apply in_seq in Hi. lia.
  - intros Hx. exists (Z.to_nat (x - a)). split; [lia |].
    apply in_seq. lia.
Qed.

Lemma length_xrange a b : length (xrange a b) = Z.to_nat (b - a).
Proof. unfold xrange. now rewrite length_map, length_seq. Qed.

Lemma NoDup_xrange a b : NoDup (xrange a b).
Proof.
  unfold xrange. apply Injective_map_NoDup.
  - intros i j Hij. lia.
  - apply seq_NoDup.
Qed.

Lemma xrange_empty a b : b <= a -> xrange a b = [].
Proof.
  intros Hab. unfold xrange.
  replace (Z.to_nat (b - a)) with 0%nat by lia. reflexivity.
Qed.

(** A list built row by row has no duplicate when no row has one and
    every element remembers the row it comes from. *)
Lemma NoDup_flat_map {A B} (f : A -> list B) (key : B -> A) (l : list A) :
  NoDup l ->
  (forall a, NoDup (f a)) ->
  (forall a b, In b (f a) -> key b = a) ->
  NoDup (flat_map f l).
Proof.
  intros Hl Hrow Hkey. induction Hl as [| a l Ha Hl IH]; simpl.
  - constructor.
  - apply NoDup_app; [apply Hrow | exact IH |].
    intros b Hb Hb'. apply in_flat_map in Hb' as (a' & Ha' & Hb').
    apply Hkey in Hb, Hb'. congruence.
Qed.

Lemma NoDup_row (y : Z) (xs : list Z) :
  NoDup xs -> NoDup (map (fun x => (x, y)) xs).
Proof.
  intros H. apply Injective_map_NoDup; [| exact H].
  intros a b Hab. congruence.
Qed.

Lemma NoDup_column (x : Z) (ys : list Z) :
  NoDup ys -> NoDup (map (fun y => (x, y)) ys).
Proof.
  intros H. apply Injective_map_NoDup; [| exact H].
  intros a b Hab. congruence.
Qed.

(** Twice the sum of an arithmetic progression of lengths. *)
Lemma sum_progression (c d : Z) (n : nat) :
  (forall i, (i < n)%nat -> 0 <= c + d * Z.of_nat i) ->
  2 * Z.of_nat (list_sum (map (fun i => Z.to_nat (c + d * Z.of_nat i))
                              (seq 0 n)))
  = 2 * Z.of_nat n * c + d * Z.of_nat n * (Z.of_nat n - 1).
Proof.
  induction n as [| n IH]; intros Hpos.
  - simpl. lia.
  - rewrite seq_S, map_app, list_sum_app. cbn [map list_sum Nat.add].
    pose proof (Hpos n (Nat.lt_succ_diag_r n)) as Hn.
    assert (IH' := IH (fun i Hi => Hpos i (Nat.lt_lt_succ_r _ _ Hi))).
    change (list_sum [Z.to_nat (c + d * Z.of_nat n)])
      with (Z.to_nat (c + d * Z.of_nat n) + 0)%nat.
    rewrite Nat.add_0_r, Nat2Z.inj_add, Z2Nat.id by exact Hn.
    rewrite Nat2Z.inj_succ. nia.
Qed.

(** ** Region Sampler: which pixels each region holds *)

Section Regions.

Variables tile_x tile_y tile_size : Z.

Lemma in_north_coords x y :
  In (x, y) (north_coords tile_x tile_y tile_size) <->
  tile_y <= y < tile_y + tile_size / 2 /\
  tile_x + (y - tile_y) <= x < tile_x + tile_size - (y - tile_y).
Proof.
  unfold north_coords. rewrite in_flat_map. split.
  - intros (y' & Hy' & Hin). apply in_map_iff in Hin as (x' & Heq & Hx').
    inversion Heq; subst. apply in_xrange in Hy', Hx'. lia.
  - intros [Hy Hx]. exists y. split; [now apply in_xrange |].
    apply in_map_iff. exists x. split; [reflexivity | now apply in_xrange].
Qed.

Lemma in_south_coords x y :
  In (x, y) (south_coords tile_x tile_y tile_size) <->
  tile_y + tile_size / 2 <= y < tile_y + tile_size /\
  tile_x + (tile_y + tile_size - y) <= x
    < tile_x + tile_size - (tile_y + tile_size - y).
Proof.
  unfold south_coords. rewrite in_flat_map. split.
  - intros (y' & Hy' & Hin). apply in_map_iff in Hin as (x' & Heq & Hx').
    inversion Heq; subst. apply in_xrange in Hy', Hx'. lia.
  - intros [Hy Hx]. exists y. split; [now apply in_xrange |].
    apply in_map_iff. exists x. split; [reflexivity | now apply in_xrange].
Qed.

Lemma in_east_coords x y :
  In (x, y) (east_coords tile_x tile_y tile_size) <->
  tile_x <= x < tile_x + tile_size / 2 /\
  tile_y + (x - tile_x) <= y < tile_y + tile_size - (x - tile_x).
Proof.
  unfold east_coords. rewrite in_flat_map. split.
  - intros (x' & Hx' & Hin). apply in_map_iff in Hin as (y' & Heq & Hy').
    inversion Heq; subst. apply in_xrange in Hy', Hx'. lia.
  - intros [Hx Hy]. exists x. split; [now apply in_xrange |].
    apply in_map_iff. exists y. split; [reflexivity | now apply in_xrange].
Qed.

Lemma in_west_coords x y :
  In (x, y) (west_coords tile_x tile_y tile_size) <->
  tile_x + tile_size / 2 <= x < tile_x + tile_size /\
  tile_y + (tile_x + tile_size - x) <= y
    < tile_y + tile_size - (tile_x + tile_size - x).
Proof.
  unfold west_coords. rewrite in_flat_map. split.
  - intros (x' & Hx' & Hin). apply in_map_iff in Hin as (y' & Heq & Hy').
    inversion Heq; subst. apply in_xrange in Hy', Hx'. lia.
  - intros [Hx Hy]. exists x. split; [now apply in_xrange |].
    apply in_map_iff. exists y. split; [reflexivity | now apply in_xrange].
Qed.

Lemma NoDup_north_coords : NoDup (north_coords tile_x tile_y tile_size).
Proof.
  unfold north_coords. apply NoDup_flat_map with (key := snd).
  - apply NoDup_xrange.
  - intros y. apply NoDup_row, NoDup_xrange.
  - intros y p Hp. apply in_map_iff in Hp as (x & <- & _). reflexivity.
Qed.

Lemma NoDup_south_coords : NoDup (south_coords tile_x tile_y tile_size).
Proof.
  unfold south_coords. apply NoDup_flat_map with (key := snd).
  - apply NoDup_xrange.
  - intros y. apply NoDup_row, NoDup_xrange.
  - intros y p Hp. apply in_map_iff in Hp as (x & <- & _). reflexivity.
Qed.

Lemma NoDup_east_coords : NoDup (east_coords tile_x tile_y tile_size).
Proof.
  unfold east_coords. apply NoDup_flat_map with (key := fst).
  - apply NoDup_xrange.
  - intros x. apply NoDup_column, NoDup_xrange.
  - intros x p Hp. apply in_map_iff in Hp as (y & <- & _). reflexivity.
Qed.

Lemma NoDup_west_coords : NoDup (west_coords tile_x tile_y tile_size).
Proof.
  unfold west_coords. apply NoDup_flat_map with (key := fst).
  - apply NoDup_xrange.
  - intros x. apply NoDup_column, NoDup_xrange.
  - intros x p Hp. apply in_map_iff in Hp as (y & <- & _). reflexivity.
Qed.

End Regions.

(** ** Region Sampler: sizes *)

Lemma even_halves (tile_size : Z) :
  tile_size mod 2 = 0 -> tile_size = 2 * (tile_size / 2).
Proof. intros H. apply Z_div_exact_full_2; [lia | exact H]. Qed.

Section RegionSizes.

Variables tile_x tile_y tile_size : Z.
Hypothesis Hpos : 0 <= tile_size.
Hypothesis Heven : tile_size mod 2 = 0.

Let q := tile_size / 2.

Lemma twice_length_north :
  2 * Z.of_nat (length (north_coords tile_x tile_y tile_size))
  = 2 * q * tile_size - 2 * q * (q - 1).
Proof.
  pose proof (even_halves _ Heven) as Hq. fold q in Hq.
  unfold north_coords. fold q.
  rewrite length_flat_map. unfold xrange at 2. rewrite map_map.
  rewrite (map_ext _ (fun i => Z.to_nat (tile_size + (-2) * Z.of_nat i))).
  - rewrite sum_progression by lia. lia.
  - intros i. rewrite length_map, length_xrange. f_equal. lia.
Qed.

Lemma twice_length_south :
  2 * Z.of_nat (length (south_coords tile_x tile_y tile_size))
  = 2 * q * (q - 1).
Proof.
  pose proof (even_halves _ Heven) as Hq. fold q in Hq.
  unfold south_coords. fold q.
  rewrite length_flat_map. unfold xrange at 2. rewrite map_map.
  rewrite (map_ext _ (fun i => Z.to_nat (0 + 2 * Z.of_nat i))).
  - rewrite sum_progression by lia. lia.
  - intros i. rewrite length_map, length_xrange. f_equal. lia.
Qed.

Lemma twice_length_east :
  2 * Z.of_nat (length (east_coords tile_x tile_y tile_size))
  = 2 * q * tile_size - 2 * q * (q - 1).
Proof.
  pose proof (even_halves _ Heven) as Hq. fold q in Hq.
  unfold east_coords. fold q.
  rewrite length_flat_map. unfold xrange at 2. rewrite map_map.
  rewrite (map_ext _ (fun i => Z.to_nat (tile_size + (-2) * Z.of_nat i))).
  - rewrite sum_progression by lia. lia.
  - intros i. rewrite length_map, length_xrange. f_equal. lia.
Qed.

Lemma twice_length_west :
  2 * Z.of_nat (length (west_coords tile_x tile_y tile_size))
  = 2 * q * (q - 1).
Proof.
  pose proof (even_halves _ Heven) as Hq. fold q in Hq.
  unfold west_coords. fold q.
  rewrite length_flat_map. unfold xrange at 2. rewrite map_map.
  rewrite (map_ext _ (fun i => Z.to_nat (0 + 2 * Z.of_nat i))).
  - rewrite sum_progression by lia. lia.
  - intros i. rewrite length_map, length_xrange. f_equal. lia.
Qed.

End RegionSizes.

Lemma mapM_length {A B} (f : A -> M B) (l : list A) st bs st' :
  mapM f l st = (ok bs, st') -> length bs = length l.
Proof.
  revert st bs st'. induction l as [| a l IH]; intros st bs st' H.
  - inversion H. reflexivity.
  - simpl in H. unfold bind in H.
    destruct (f a st) as [[e | b] st1]; [discriminate |].
    destruct (mapM f l st1) as [[e | bs'] st2] eqn:Hl; [discriminate |].
    inversion H; subst. simpl. f_equal. eapply IH. exact Hl.
Qed.

(** C5: for an even [tile_size >= 2] the sizes of the four sampled
    regions add up to [tile_size²]; this holds of the pixel positions
    the loops visit and of the four colour lists they build. *)
Theorem region_sizes_sum (tile_x tile_y tile_size : Z) :
  2 <= tile_size -> tile_size mod 2 = 0 ->
  Z.of_nat (length (north_coords tile_x tile_y tile_size)
            + length (east_coords tile_x tile_y tile_size)
            + length (south_coords tile_x tile_y tile_size)
            + length (west_coords tile_x tile_y tile_size))
  = tile_size * tile_size
  /\ forall st north east south west st',
      triangle_regions tile_x tile_y tile_size st
      = (ok (north, east, south, west), st') ->
      Z.of_nat (length north + length east + length south + length west)
      = tile_size * tile_size.
Proof.
  intros Hge Heven.
  assert (Hsum :
    Z.of_nat (length (north_coords tile_x tile_y tile_size)
              + length (east_coords tile_x tile_y tile_size)
              + length (south_coords tile_x tile_y tile_size)
              + length (west_coords tile_x tile_y tile_size))
    = tile_size * tile_size).
  { assert (Hpos : 0 <= tile_size) by lia.
    pose proof (twice_length_north tile_x tile_y tile_size Hpos Heven).
    pose proof (twice_length_south tile_x tile_y tile_size Hpos Heven).
    pose proof (twice_length_east tile_x tile_y tile_size Hpos Heven).
    pose proof (twice_length_west tile_x tile_y tile_size Hpos Heven).
    pose proof (even_halves _ Heven).
    nia. }
  split; [exact Hsum |].
  intros st north east south west st' Hrun.
  unfold triangle_regions, bind, sample in Hrun.
  destruct (mapM _ (north_coords _ _ _) st) as [[e | n] s1] eqn:Hn;
    [discriminate |].
  destruct (mapM _ (south_coords _ _ _) s1) as [[e | s] s2] eqn:Hs;
    [discriminate |].
  destruct (mapM _ (east_coords _ _ _) s2) as [[e0 | e] s3] eqn:He;
    [discriminate |].
  destruct (mapM _ (west_coords _ _ _) s3) as [[e0 | w] s4] eqn:Hw;
    [discriminate |].
  inversion Hrun; subst.
  apply mapM_length in Hn, Hs, He, Hw.
  rewrite Hn, Hs, He, Hw. exact Hsum.
Qed.

(** ** Region Sampler: how the regions lie in the tile *)

Lemma count_in (l : list (Z * Z)) (p : Z * Z) :
  NoDup l -> In p l -> count_occ coord_eq_dec l p = 1%nat.
Proof. intros Hl. now apply NoDup_count_occ'. Qed.

Lemma count_out (l : list (Z * Z)) (p : Z * Z) :
  ~ In p l -> count_occ coord_eq_dec l p = 0%nat.
Proof. apply count_occ_not_In. Qed.

Lemma times_sampled_split tile_x tile_y tile_size p :
  times_sampled tile_x tile_y tile_size p
  = (count_occ coord_eq_dec (north_coords tile_x tile_y tile_size) p
     + count_occ coord_eq_dec (east_coords tile_x tile_y tile_size) p
     + count_occ coord_eq_dec (south_coords tile_x tile_y tile_size) p
     + count_occ coord_eq_dec (west_coords tile_x tile_y tile_size) p)%nat.
Proof.
  unfold times_sampled, all_coords. rewrite !count_occ_app. lia.
Qed.

Ltac region_counts q :=
  repeat match goal with
    | |- context [count_occ _ (north_coords ?tx ?ty ?ts) (?x, ?y)] =>
        first
          [ rewrite (count_in (north_coords tx ty ts) (x, y))
              by (try apply NoDup_north_coords;
                  apply in_north_coords; fold q; lia)
          | rewrite (count_out (north_coords tx ty ts) (x, y))
              by (rewrite in_north_coords; fold q; lia) ]
    | |- context [count_occ _ (east_coords ?tx ?ty ?ts) (?x, ?y)] =>
        first
          [ rewrite (count_in (east_coords tx ty ts) (x, y))
              by (try apply NoDup_east_coords;
                  apply in_east_coords; fold q; lia)
          | rewrite (count_out (east_coords tx ty ts) (x, y))
              by (rewrite in_east_coords; fold q; lia) ]
    | |- context [count_occ _ (south_coords ?tx ?ty ?ts) (?x, ?y)] =>
        first
          [ rewrite (count_in (south_coords tx ty ts) (x, y))
              by (try apply NoDup_south_coords;
                  apply in_south_coords; fold q; lia)
          | rewrite (count_out (south_coords tx ty ts) (x, y))
              by (rewrite in_south_coords; fold q; lia) ]
    | |- context [count_occ _ (west_coords ?tx ?ty ?ts) (?x, ?y)] =>
        first
          [ rewrite (count_in (west_coords tx ty ts) (x, y))
              by (try apply NoDup_west_coords;
                  apply in_west_coords; fold q; lia)
          | rewrite (count_out (west_coords tx ty ts) (x, y))
              by (rewrite in_west_coords; fold q; lia) ]
    end.

Section Geometry.

Variables tile_x tile_y tile_size : Z.
Hypothesis Hge : 2 <= tile_size.
Hypothesis Heven : tile_size mod 2 = 0.

Lemma regions_within_tile p :
  In p (all_coords tile_x tile_y tile_size) ->
  in_tile tile_x tile_y tile_size p.
Proof.
  pose proof (even_halves _ Heven) as Hq.
  destruct p as [x y]. unfold all_coords, in_tile. simpl.
  rewrite !in_app_iff, in_north_coords, in_east_coords,
    in_south_coords, in_west_coords.
  set (q := tile_size / 2) in *. lia.
Qed.

Lemma off_diagonal_sampled_once x y :
  in_tile tile_x tile_y tile_size (x, y) ->
  x - tile_x <> y - tile_y ->
  times_sampled tile_x tile_y tile_size (x, y) = 1%nat.
Proof.
  pose proof (even_halves _ Heven) as Hq.
  unfold in_tile; simpl. intros Htile Hdiag.
  rewrite times_sampled_split.
  set (q := tile_size / 2) in *.
  destruct (Z_lt_le_dec (x - tile_x) (y - tile_y));
    destruct (Z_lt_le_dec ((x - tile_x) + (y - tile_y)) tile_size);
    region_counts q; reflexivity.
Qed.

(** On the main diagonal the upper-left half is sampled by North and
    by East, the lower-right half by no region. *)
Lemma upper_diagonal_sampled_twice d :
  0 <= d < tile_size / 2 ->
  times_sampled tile_x tile_y tile_size (tile_x + d, tile_y + d) = 2%nat.
Proof.
  pose proof (even_halves _ Heven) as Hq. intros Hd.
  rewrite times_sampled_split.
  set (q := tile_size / 2) in *.
  region_counts q; reflexivity.
Qed.

Lemma lower_diagonal_never_sampled d :
  tile_size / 2 <= d < tile_size ->
  times_sampled tile_x tile_y tile_size (tile_x + d, tile_y + d) = 0%nat.
Proof.
  pose proof (even_halves _ Heven) as Hq. intros Hd.
  rewrite times_sampled_split.
  set (q := tile_size / 2) in *.
  region_counts q; reflexivity.
Qed.

End Geometry.

(** C2, as the code has it: for an even [tile_size >= 2] the regions
    sample pixels of the tile only, and every pixel of the tile off its
    main diagonal belongs to exactly one region. *)
Theorem regions_partition_off_diagonal (tile_x tile_y tile_size : Z) :
  2 <= tile_size -> tile_size mod 2 = 0 ->
  (forall p, In p (all_coords tile_x tile_y tile_size) ->
             in_tile tile_x tile_y tile_size p) /\
  (forall p, in_tile tile_x tile_y tile_size p ->
             fst p - tile_x <> snd p - tile_y ->
             times_sampled tile_x tile_y tile_size p = 1%nat).
Proof.
  intros Hge Heven. split.
  - intros p. now apply regions_within_tile.
  - intros [x y] Htile Hdiag. now apply off_diagonal_sampled_once.
Qed.

(** C2 as stated fails already on the smallest tile: pixel (0,0) of the
    2x2 tile at the origin is sampled twice (and pixel (1,1) never). *)
Lemma regions_do_not_partition_tile_2 : ~ partitions_tile 0 0 2.
Proof.
  intros [Honce _].
  specialize (Honce (0, 0)).
  assert (Hin : in_tile 0 0 2 (0, 0)) by (unfold in_tile; simpl; lia).
  apply Honce in Hin. vm_compute in Hin. discriminate.
Qed.

Example tile_2_corner_never_sampled : times_sampled 0 0 2 (1, 1) = 0%nat.
Proof. reflexivity. Qed.

(** ** Region Sampler: empty regions *)

Lemma south_coords_tile_2 tile_x tile_y : south_coords tile_x tile_y 2 = [].
Proof.
  unfold south_coords. change (2 / 2) with 1.
  replace (xrange (tile_y + 1) (tile_y + 2)) with [tile_y + 1].
  - simpl. rewrite xrange_empty by lia. reflexivity.
  - unfold xrange. replace (Z.to_nat (tile_y + 2 - (tile_y + 1))) with 1%nat by lia.
    simpl. f_equal. lia.
Qed.

Lemma west_coords_tile_2 tile_x tile_y : west_coords tile_x tile_y 2 = [].
Proof.
  unfold west_coords. change (2 / 2) with 1.
  replace (xrange (tile_x + 1) (tile_x + 2)) with [tile_x + 1].
  - simpl. rewrite xrange_empty by lia. reflexivity.
  - unfold xrange. replace (Z.to_nat (tile_x + 2 - (tile_x + 1))) with 1%nat by lia.
    simpl. f_equal. lia.
Qed.

(** From [tile_size = 4] on, no region is empty. *)
Lemma regions_nonempty_from_4 tile_x tile_y tile_size :
  4 <= tile_size -> tile_size mod 2 = 0 ->
  north_coords tile_x tile_y tile_size <> [] /\
  east_coords tile_x tile_y tile_size <> [] /\
  south_coords tile_x tile_y tile_size <> [] /\
  west_coords tile_x tile_y tile_size <> [].
Proof.
  intros Hge Heven. pose proof (even_halves _ Heven) as Hq.
  assert (HN : In (tile_x, tile_y) (north_coords tile_x tile_y tile_size))
    by (apply in_north_coords; set (q := tile_size / 2) in *; lia).
  assert (HE : In (tile_x, tile_y) (east_coords tile_x tile_y tile_size))
    by (apply in_east_coords; set (q := tile_size / 2) in *; lia).
  assert (HS : In (tile_x + 1, tile_y + tile_size - 1)
                  (south_coords tile_x tile_y tile_size))
    by (apply in_south_coords; set (q := tile_size / 2) in *; lia).
  assert (HW : In (tile_x + tile_size - 1, tile_y + 1)
                  (west_coords tile_x tile_y tile_size))
    by (apply in_west_coords; set (q := tile_size / 2) in *; lia).
  repeat split; intros Hnil;
    [rewrite Hnil in HN | rewrite Hnil in HE
     | rewrite Hnil in HS | rewrite Hnil in HW]; contradiction.
Qed.

Lemma get_average_color_nil : get_average_color [] = raise TypeError.
Proof. reflexivity. Qed.

Lemma averages_with_empty_south (north east west : list color) :
  exists e,
    (n <~ get_average_color north ;;
     e <~ get_average_color east ;;
     s <~ get_average_color [] ;;
     w <~ get_average_color west ;;
     ok (n, e, s, w))%result = inl e.
Proof.
  destruct (get_average_color north) as [e1 | cn]; [now exists e1 |].
  destruct (get_average_color east) as [e2 | ce]; [now exists e2 |].
  now exists TypeError.
Qed.

(** With [tile_size = 2] the South list is empty whatever the tile and
    the image, so [triangle_colors] cannot return. *)
Lemma triangle_colors_tile_2_fails tile_x tile_y st :
  exists e st', triangle_colors tile_x tile_y 2 st = (inl e, st').
Proof.
  unfold triangle_colors, triangle_regions, bind.
  rewrite south_coords_tile_2, west_coords_tile_2.
  destruct (sample (north_coords tile_x tile_y 2) st) as [[e1 | north] s1];
    [now exists e1, s1 |].
  change (sample [] s1) with (ok (@nil color), s1). cbv iota beta.
  destruct (sample (east_coords tile_x tile_y 2) s1) as [[e2 | east] s2];
    [now exists e2, s2 |].
  change (sample [] s2) with (ok (@nil color), s2). cbv iota beta.
  destruct (averages_with_empty_south north east []) as [e He].
  exists e, s2. unfold ret, lift in *. unfold ok in *. cbv iota beta.
  now rewrite He.
Qed.

(** C1, at [tile_size = 2]: on the solid red 2x2 image the single tile
    is read (North, then East; South and West have nothing to read) and
    [get_average_color] is then applied to the empty South list. *)
Theorem tile_size_2_averages_empty_region
        (polygon : list (Z * Z) -> string -> Image -> Image) :
  south_coords 0 0 2 = [] /\
  triangulize polygon (solid 2 2 red) (PyInt 2)
  = (raise TypeError,
     [PixelRead 0 0; PixelRead 1 0; PixelRead 0 0; PixelRead 0 1]).
Proof. split; reflexivity. Qed.

(** ** Split Selector *)

Lemma color_eqb_eq a b : color_eqb a b = true <-> a = b.
Proof.
  destruct a as [[r1 g1] b1], b as [[r2 g2] b2]. unfold color_eqb.
  rewrite !andb_true_iff, !Z.eqb_eq. split.
  - intros [[-> ->] ->]. reflexivity.
  - intros H. inversion H. auto.
Qed.

Lemma color_le_iff a b :
  color_le a b <->
  let '(r1, g1, b1) := a in
  let '(r2, g2, b2) := b in
  r1 < r2 \/ (r1 = r2 /\ (g1 < g2 \/ (g1 = g2 /\ b1 <= b2))).
Proof.
  destruct a as [[r1 g1] b1], b as [[r2 g2] b2]. unfold color_le, color_leb.
  rewrite !orb_true_iff, !andb_true_iff, !orb_true_iff, !andb_true_iff,
    !Z.ltb_lt, !Z.eqb_eq, Z.leb_le. reflexivity.
Qed.

Lemma color_le_total a b : color_leb a b = false -> color_le b a.
Proof.
  intros H. apply color_le_iff.
  assert (Hn : ~ color_le a b) by (unfold color_le; congruence).
  rewrite color_le_iff in Hn.
  destruct a as [[r1 g1] b1], b as [[r2 g2] b2]. lia.
Qed.

Lemma color_le_trans a b c : color_le a b -> color_le b c -> color_le a c.
Proof.
  rewrite !color_le_iff.
  destruct a as [[r1 g1] b1], b as [[r2 g2] b2], c as [[r3 g3] b3]. lia.
Qed.

Lemma color_le_antisym a b : color_le a b -> color_le b a -> a = b.
Proof.
  rewrite !color_le_iff.
  destruct a as [[r1 g1] b1], b as [[r2 g2] b2].
  intros H1 H2. repeat f_equal; lia.
Qed.

Lemma color_le_refl a : color_le a a.
Proof. apply color_le_iff. destruct a as [[r g] b]. lia. Qed.

Lemma insert_not_nil x l : insert x l <> [].
Proof. destruct l as [| y l]; simpl; [| destruct (color_leb x y)]; discriminate. Qed.

(** [sorted(l)[0]] is a least element of [l]. *)
Lemma first_sorted_least l c :
  first (sorted l) = ok c ->
  In c l /\ forall x, In x l -> color_le c x.
Proof.
  revert c. induction l as [| a l IH]; intros c Hc; [discriminate |].
  simpl in Hc. destruct (sorted l) as [| m rest] eqn:Hs.
  - assert (l = []) as ->.
    { destruct l as [| b l']; [reflexivity |].
      simpl in Hs. now apply insert_not_nil in Hs. }
    simpl in Hc. inversion Hc; subst. split; [now left |].
    intros x [<- | []]. apply color_le_refl.
  - destruct (IH m eq_refl) as [Hin Hmin].
    simpl in Hc. destruct (color_leb a m) eqn:Ham;
      simpl in Hc; inversion Hc; subst.
    + split; [now left |].
      intros x [<- | Hx]; [apply color_le_refl |].
      eapply color_le_trans; [exact Ham | now apply Hmin].
    + split; [now right |].
      intros x [<- | Hx]; [now apply color_le_total | now apply Hmin].
Qed.

Lemma first_sorted_cons a l : exists c, first (sorted (a :: l)) = ok c.
Proof.
  simpl. destruct (insert a (sorted l)) as [| c rest] eqn:H.
  - now apply insert_not_nil in H.
  - now exists c.
Qed.

Lemma choose_split_closest (n e s w : color) :
  exists closest,
    In closest [get_color_dist n e; get_color_dist n w;
                get_color_dist s e; get_color_dist s w] /\
    (forall c, In c [get_color_dist n e; get_color_dist n w;
                     get_color_dist s e; get_color_dist s w] ->
               color_le closest c) /\
    choose_split n e s w
    = ok (if color_eqb closest (get_color_dist n e)
             || color_eqb closest (get_color_dist s w)
          then Right else Left).
Proof.
  unfold choose_split.
  set (d_ne := get_color_dist n e). set (d_nw := get_color_dist n w).
  set (d_se := get_color_dist s e). set (d_sw := get_color_dist s w).
  destruct (first_sorted_cons d_ne [d_nw; d_se; d_sw]) as [c Hc].
  destruct (first_sorted_least _ _ Hc) as [Hin Hmin].
  exists c. split; [exact Hin | split; [exact Hmin |]].
  rewrite Hc, rbind_ok.
  destruct (color_eqb c d_ne || color_eqb c d_sw) eqn:Hr; [reflexivity |].
  apply orb_false_iff in Hr as [Hne Hsw].
  destruct Hin as [<- | [<- | [<- | [<- | []]]]].
  - rewrite (proj2 (color_eqb_eq _ _) eq_refl) in Hne. discriminate.
  - rewrite (proj2 (color_eqb_eq d_nw d_nw) eq_refl). reflexivity.
  - rewrite (proj2 (color_eqb_eq d_se d_se) eq_refl), orb_true_r. reflexivity.
  - rewrite (proj2 (color_eqb_eq _ _) eq_refl) in Hsw. discriminate.
Qed.

(** C4, as the code has it: the selector takes the lexicographically
    least of the four distance-colours d(N,E), d(N,W), d(S,E), d(S,W);
    the split is Right whenever that least value equals d(N,E) or
    d(S,W), and Left otherwise, so that a tie between a Right pair and
    a Left pair always goes to Right. *)
Theorem choose_split_least_by_value (n e s w : color) :
  exists closest,
    In closest [get_color_dist n e; get_color_dist n w;
                get_color_dist s e; get_color_dist s w] /\
    (forall c, In c [get_color_dist n e; get_color_dist n w;
                     get_color_dist s e; get_color_dist s w] ->
               color_le closest c) /\
    choose_split n e s w
    = ok (if color_eqb closest (get_color_dist n e)
             || color_eqb closest (get_color_dist s w)
          then Right else Left).
Proof. exact (choose_split_closest n e s w). Qed.

(** C4 as stated fails: here d(N,W) and d(S,W) are both least, (N,W)
    comes first in the evaluation order, which would give Left, and
    the code answers Right. *)
Lemma first_minimal_pair_does_not_decide :
  spec_split (10, 10, 10) (20, 10, 10) (10, 10, 10) (10, 10, 10) = Some Left /\
  choose_split (10, 10, 10) (20, 10, 10) (10, 10, 10) (10, 10, 10) = ok Right.
Proof. split; reflexivity. Qed.

(** ** Image Driver: cropping *)

Lemma prep_image_nonzero image tile_size :
  tile_size <> 0 ->
  prep_image image tile_size
  = ok (if (width image / tile_size * tile_size =? width image)
           && (height image / tile_size * tile_size =? height image)
        then image
        else crop image (0, 0, width image / tile_size * tile_size,
                         height image / tile_size * tile_size)).
Proof.
  intros Hts. unfold prep_image, size.
  rewrite !py_div_nonzero, !rbind_ok by exact Hts.
  destruct (_ && _); reflexivity.
Qed.

Lemma floor_multiple (w tile_size : Z) :
  0 < tile_size ->
  (w / tile_size * tile_size) mod tile_size = 0 /\
  w / tile_size * tile_size <= w /\
  (0 <= w -> 0 <= w / tile_size * tile_size) /\
  (forall m, m mod tile_size = 0 -> m <= w -> m <= w / tile_size * tile_size) /\
  (w mod tile_size = 0 -> w / tile_size * tile_size = w).
Proof.
  intros Hts. repeat split.
  - apply Z.mod_mul. lia.
  - rewrite Z.mul_comm. apply Z.mul_div_le. exact Hts.
  - intros Hw. apply Z.mul_nonneg_nonneg; [| lia].
    apply Z.div_pos; lia.
  - intros m Hm Hle.
    assert (Hmq : m = tile_size * (m / tile_size))
      by (apply Z_div_exact_full_2; [lia | exact Hm]).
    assert (Hq : m / tile_size <= w / tile_size)
      by (apply Z.div_le_mono; lia).
    rewrite Hmq at 1. nia.
  - intros Hw. rewrite Z.mul_comm. symmetry.
    apply Z_div_exact_full_2; [lia | exact Hw].
Qed.

Lemma width_crop_origin image new_w new_h :
  0 <= new_w -> width (crop image (0, 0, new_w, new_h)) = new_w.
Proof.
  intros H. unfold crop. simpl.
  destruct (Z.ltb_spec new_w 0); lia.
Qed.

Lemma height_crop_origin image new_w new_h :
  0 <= new_h -> height (crop image (0, 0, new_w, new_h)) = new_h.
Proof.
  intros H. unfold crop. simpl.
  destruct (Z.ltb_spec new_h 0); lia.
Qed.

Lemma in_bounds_iff image x y :
  in_bounds image x y = true <->
  0 <= x < width image /\ 0 <= y < height image.
Proof.
  unfold in_bounds.
  rewrite !andb_true_iff, !Z.leb_le, !Z.ltb_lt. lia.
Qed.

Lemma getpixel_crop_origin image new_w new_h x y :
  0 <= new_w <= width image -> 0 <= new_h <= height image ->
  in_bounds (crop image (0, 0, new_w, new_h)) x y = true ->
  getpixel (crop image (0, 0, new_w, new_h)) x y = getpixel image x y.
Proof.
  intros Hw Hh Hin. unfold getpixel at 1. rewrite Hin.
  apply in_bounds_iff in Hin.
  rewrite width_crop_origin, height_crop_origin in Hin by lia.
  assert (Hsrc : in_bounds image x y = true) by (apply in_bounds_iff; lia).
  unfold crop, getpixel. simpl. rewrite Hsrc. reflexivity.
Qed.

(** C6: for a positive even [tile_size] the image handed to tiling is
    the largest sub-rectangle at the origin whose sides are multiples
    of [tile_size]: both sides are multiples, they do not exceed the
    original ones, no larger multiple fits, every pixel kept is the
    pixel of the original at the same place, an image whose sides
    are multiples already is returned itself, and width 45 with
    [tile_size] 20 becomes 40. *)
Theorem prep_image_largest_multiple (image : Image) (tile_size : Z) :
  0 <= width image -> 0 <= height image ->
  0 < tile_size -> tile_size mod 2 = 0 ->
  exists image',
    prep_image image tile_size = ok image' /\
    (width image' mod tile_size = 0 /\ height image' mod tile_size = 0) /\
    (0 <= width image' <= width image /\
     0 <= height image' <= height image) /\
    (forall m, m mod tile_size = 0 -> m <= width image ->
               m <= width image') /\
    (forall m, m mod tile_size = 0 -> m <= height image ->
               m <= height image') /\
    (forall x y, in_bounds image' x y = true ->
                 getpixel image' x y = getpixel image x y) /\
    (width image mod tile_size = 0 -> height image mod tile_size = 0 ->
     image' = image) /\
    (forall im, width im = 45 -> 0 <= height im ->
                exists im', prep_image im 20 = ok im' /\ width im' = 40).
Proof.
  intros Hw Hh Hts _.
  destruct (floor_multiple (width image) tile_size Hts)
    as (Wmod & Wle & Wpos & Wmax & Wexact).
  destruct (floor_multiple (height image) tile_size Hts)
    as (Hmod & Hle & Hpos & Hmax & Hexact).
  specialize (Wpos Hw). specialize (Hpos Hh).
  rewrite prep_image_nonzero by lia.
  set (new_w := width image / tile_size * tile_size) in *.
  set (new_h := height image / tile_size * tile_size) in *.
  assert (Hlast : forall im, width im = 45 -> 0 <= height im ->
            exists im', prep_image im 20 = ok im' /\ width im' = 40).
  { intros im Him Hhim. rewrite prep_image_nonzero by lia. rewrite Him.
    change (45 / 20 * 20) with 40. change (40 =? 45) with false.
    cbn [andb]. eexists. split; [reflexivity |].
    apply width_crop_origin. lia. }
  destruct ((new_w =? width image) && (new_h =? height image)) eqn:Hsame.
  - apply andb_true_iff in Hsame as [Ew Eh].
    apply Z.eqb_eq in Ew, Eh.
    exists image. rewrite <- Ew, <- Eh. repeat split; try lia; auto.
  - exists (crop image (0, 0, new_w, new_h)).
    rewrite width_crop_origin, height_crop_origin by lia.
    repeat split; try lia; auto.
    intros x y Hin. apply getpixel_crop_origin; [lia | lia | exact Hin].
Qed.

Example crop_45_to_40 :
  option_map size
    (match prep_image (solid 45 70 red) 20 with
     | inr im => Some im
     | inl _ => None
     end) = Some (40, 60).
Proof. reflexivity. Qed.

(** ** Image Driver: tiles *)

Lemma xrange_step_positive stop step :
  0 < step ->
  xrange_step 0 stop step
  = ok (map (fun i => 0 + Z.of_nat i * step)
            (seq 0 (Z.to_nat ((stop - 0 + step - 1) / step)))).
Proof.
  intros Hstep. unfold xrange_step.
  destruct (Z.eqb_spec step 0); [lia |].
  destruct (Z.ltb_spec 0 step); [reflexivity | lia].
Qed.

Lemma xrange_step_empty step : 0 < step -> xrange_step 0 0 step = ok [].
Proof.
  intros Hstep. rewrite xrange_step_positive by exact Hstep.
  replace ((0 - 0 + step - 1) / step) with 0; [reflexivity |].
  symmetry. apply Z.div_small. lia.
Qed.

Lemma rmapM_empty_rows {A B} (l : list A) :
  rmapM (fun _ : A => ok (@nil B)) l = ok (map (fun _ => []) l).
Proof.
  induction l as [| a l IH]; simpl; [reflexivity |].
  rewrite IH. reflexivity.
Qed.

Lemma concat_empty_rows {A B} (l : list A) :
  concat (map (fun _ => @nil B) l) = [].
Proof. induction l; simpl; auto. Qed.

Lemma iter_tiles_empty image tile_size :
  0 < tile_size -> width image = 0 \/ height image = 0 ->
  iter_tiles image tile_size = ok [].
Proof.
  intros Hts Hempty. unfold iter_tiles, size.
  destruct Hempty as [Hw | Hh].
  - rewrite Hw, xrange_step_positive by exact Hts. rewrite rbind_ok.
    rewrite xrange_step_empty by exact Hts.
    rewrite (rmapM_empty_rows (B := Z * Z)), rbind_ok.
    now rewrite concat_empty_rows.
  - rewrite Hh, xrange_step_empty by exact Hts. reflexivity.
Qed.

Lemma prep_image_size image tile_size :
  0 <= width image -> 0 <= height image -> 0 < tile_size ->
  exists image',
    prep_image image tile_size = ok image' /\
    width image' = width image / tile_size * tile_size /\
    height image' = height image / tile_size * tile_size.
Proof.
  intros Hw Hh Hts.
  destruct (floor_multiple (width image) tile_size Hts)
    as (_ & _ & Wpos & _).
  destruct (floor_multiple (height image) tile_size Hts)
    as (_ & _ & Hpos & _).
  rewrite prep_image_nonzero by lia.
  destruct (_ && _) eqn:Hsame.
  - exists image. apply andb_true_iff in Hsame as [Ew Eh].
    apply Z.eqb_eq in Ew, Eh. auto.
  - eexists. split; [reflexivity |].
    rewrite width_crop_origin, height_crop_origin by auto. auto.
Qed.

Lemma bind_lift_ok {A B} (a : A) (k : A -> M B) st :
  bind (lift (ok a)) k st = k a st.
Proof. reflexivity. Qed.

Lemma bind_load {B} (im : Image) (k : unit -> M B) st :
  bind (load im) k st = k tt (mkState im (trace st)).
Proof. reflexivity. Qed.

(** Past the assertion, for an even [int]. *)
Ltac pass_assertion Heven :=
  unfold triangulize, triangulize_body, py_assert;
  cbn [isinstance_int value andb]; rewrite Heven;
  change (0 =? 0) with true; cbv iota zeta.

Section SmallImages.

Variable polygon : list (Z * Z) -> string -> Image -> Image.

(** C10: when the image is narrower or lower than a valid
    [tile_size], an [int] that is positive and even, cropping makes
    that side zero, no tile is visited, and the cropped image is
    returned without an error; no pixel was read or drawn. *)
Theorem smaller_than_a_tile_no_tiles (image : Image) (tile_size : Z) :
  0 <= width image -> 0 <= height image ->
  0 < tile_size -> tile_size mod 2 = 0 ->
  width image < tile_size \/ height image < tile_size ->
  exists image',
    prep_image image tile_size = ok image' /\
    (width image < tile_size -> width image' = 0) /\
    (height image < tile_size -> height image' = 0) /\
    iter_tiles image' tile_size = ok [] /\
    triangulize polygon image (PyInt tile_size) = (ok image', []).
Proof.
  intros Hw Hh Hts Heven Hsmall.
  destruct (prep_image_size image tile_size Hw Hh Hts)
    as (image' & Hprep & Ew & Eh).
  assert (Hw0 : width image < tile_size -> width image' = 0).
  { intros Hlt. rewrite Ew, Z.div_small by lia. reflexivity. }
  assert (Hh0 : height image < tile_size -> height image' = 0).
  { intros Hlt. rewrite Eh, Z.div_small by lia. reflexivity. }
  assert (Htiles : iter_tiles image' tile_size = ok []).
  { apply iter_tiles_empty; [exact Hts |].
    destruct Hsmall; [left | right]; auto. }
  exists image'. repeat split; auto.
  pass_assertion Heven.
  rewrite bind_lift_ok, Hprep, bind_lift_ok, bind_load, Htiles,
    bind_lift_ok.
  reflexivity.
Qed.

End SmallImages.

(** ** Image Driver: which runs the assertion stops *)

Create HintDb asserts.

Lemma passes_ok {A} (a : A) : passes (ok a).
Proof. discriminate. Qed.

Lemma passes_rbind {A B} (r : result A) (k : A -> result B) :
  passes r -> (forall a, passes (k a)) -> passes (rbind r k).
Proof.
  intros Hr Hk. destruct r as [e | a]; simpl; [| apply Hk].
  intros Heq. apply Hr. inversion Heq. reflexivity.
Qed.

Lemma passes_py_div a b : passes (py_div a b).
Proof. unfold py_div. destruct (b =? 0); discriminate. Qed.

Lemma passes_reduce {A} (f : A -> A -> A) l : passes (reduce f l).
Proof. destruct l; discriminate. Qed.

Lemma passes_first {A} (l : list A) : passes (first l).
Proof. destruct l; discriminate. Qed.

Lemma passes_xrange_step a b c : passes (xrange_step a b c).
Proof. unfold xrange_step. destruct (c =? 0); discriminate. Qed.

#[local] Hint Resolve passes_ok passes_rbind passes_py_div passes_reduce
  passes_first passes_xrange_step : asserts.

Lemma passes_get_average_color l : passes (get_average_color l).
Proof.
  unfold get_average_color. apply passes_rbind; auto with asserts.
  intros [[tr tg] tb]. auto 10 with asserts.
Qed.

Lemma passes_choose_split n e s w : passes (choose_split n e s w).
Proof.
  unfold choose_split. apply passes_rbind; auto with asserts.
  intros c. destruct (_ || _); [auto with asserts |].
  destruct (_ || _); [auto with asserts | discriminate].
Qed.

Lemma passes_rmapM {A B} (f : A -> result B) l :
  (forall a, passes (f a)) -> passes (rmapM f l).
Proof. intros Hf. induction l; simpl; auto 10 with asserts. Qed.

Lemma passes_prep_image image tile_size : passes (prep_image image tile_size).
Proof.
  unfold prep_image, size. apply passes_rbind; auto with asserts.
  intros x. apply passes_rbind; auto with asserts.
  intros y. destruct (_ && _); auto with asserts.
Qed.

Lemma passes_iter_tiles image tile_size : passes (iter_tiles image tile_size).
Proof.
  unfold iter_tiles, size. apply passes_rbind; auto with asserts.
  intros ys. apply passes_rbind; auto with asserts.
  apply passes_rmapM. intros y. auto with asserts.
Qed.

#[local] Hint Resolve passes_get_average_color passes_choose_split
  passes_prep_image passes_iter_tiles : asserts.

Lemma never_asserts_ret {A} (a : A) : never_asserts (ret a).
Proof. intros st. discriminate. Qed.

Lemma never_asserts_lift {A} (r : result A) : passes r -> never_asserts (lift r).
Proof. intros Hr st. exact Hr. Qed.

Lemma never_asserts_bind {A B} (m : M A) (k : A -> M B) :
  never_asserts m -> (forall a, never_asserts (k a)) ->
  never_asserts (bind m k).
Proof.
  intros Hm Hk st. unfold bind. specialize (Hm st).
  destruct (m st) as [[e | a] st']; [| apply Hk].
  simpl in *. intros Heq. apply Hm. inversion Heq. reflexivity.
Qed.

Lemma never_asserts_pix x y : never_asserts (pix x y).
Proof.
  intros st. unfold pix. destruct (getpixel _ _ _); discriminate.
Qed.

Lemma never_asserts_load im : never_asserts (load im).
Proof. intros st. discriminate. Qed.

Lemma never_asserts_current : never_asserts current.
Proof. intros st. discriminate. Qed.

#[local] Hint Resolve never_asserts_ret never_asserts_lift never_asserts_bind
  never_asserts_pix never_asserts_load never_asserts_current : asserts.

Lemma never_asserts_mapM {A B} (f : A -> M B) l :
  (forall a, never_asserts (f a)) -> never_asserts (mapM f l).
Proof. intros Hf. induction l; simpl; auto 10 with asserts. Qed.

Lemma never_asserts_forM_ {A} (l : list A) (f : A -> M unit) :
  (forall a, never_asserts (f a)) -> never_asserts (forM_ l f).
Proof. intros Hf. induction l; simpl; auto with asserts. Qed.

Lemma never_asserts_sample coords : never_asserts (sample coords).
Proof.
  apply never_asserts_mapM. intros [x y]. apply never_asserts_pix.
Qed.

#[local] Hint Resolve never_asserts_sample : asserts.

Lemma never_asserts_triangle_colors tx ty ts :
  never_asserts (triangle_colors tx ty ts).
Proof.
  unfold triangle_colors, triangle_regions.
  apply never_asserts_bind; [auto 10 with asserts |].
  intros [[[north east] south] west]. auto 10 with asserts.
Qed.

Section Asserts.

Variable polygon : list (Z * Z) -> string -> Image -> Image.

Lemma never_asserts_draw_triangle a b c col :
  never_asserts (draw_triangle polygon a b c col).
Proof.
  intros st. unfold draw_triangle. destruct (fill_parses col); discriminate.
Qed.

Lemma never_asserts_process_tile tx ty ts :
  never_asserts (process_tile polygon tx ty ts).
Proof.
  unfold process_tile.
  apply never_asserts_bind; [apply never_asserts_triangle_colors |].
  intros [[[n e] s] w].
  apply never_asserts_bind; [auto with asserts |].
  intros split.
  apply never_asserts_bind.
  - apply never_asserts_lift. destruct split; auto 10 with asserts.
  - intros [top bottom]. unfold draw_triangles.
    destruct split;
      (apply never_asserts_bind;
       [apply never_asserts_draw_triangle
       | intros; apply never_asserts_draw_triangle]).
Qed.

Lemma never_asserts_even image tile_size :
  tile_size mod 2 = 0 ->
  never_asserts (triangulize_body polygon image (PyInt tile_size)).
Proof.
  intros Heven. unfold triangulize_body, py_assert.
  cbn [isinstance_int value andb]. rewrite Heven.
  change (0 =? 0) with true. cbv iota zeta.
  apply never_asserts_bind; [auto with asserts |]. intros _.
  apply never_asserts_bind; [auto with asserts |]. intros im.
  apply never_asserts_bind; [auto with asserts |]. intros _.
  apply never_asserts_bind; [auto with asserts |]. intros tiles.
  apply never_asserts_bind; [| auto with asserts].
  apply never_asserts_forM_. intros [x y].
  apply never_asserts_process_tile.
Qed.

(** C3, as the code has it: the validation asks for an [int] of even
    value and nothing more.  A [tile_size] that is a [long] or is odd
    stops the run at the assertion before anything is read or drawn,
    and a run stops at an assertion for no other [tile_size]: no even
    [int] is refused, whatever its sign. *)
Theorem asserts_exactly_long_or_odd_tile_size
        (image : Image) (tile_size : py_integer) :
  (isinstance_int tile_size = false \/ value tile_size mod 2 <> 0 ->
   triangulize polygon image tile_size = (raise AssertionError, [])) /\
  (fst (triangulize polygon image tile_size) = raise AssertionError ->
   isinstance_int tile_size = false \/ value tile_size mod 2 <> 0).
Proof.
  split.
  - intros [Hlong | Hodd];
      [now apply triangulize_long | now apply triangulize_odd].
  - intros Hfail. destruct tile_size as [z | z]; [| now left].
    destruct (Z.eq_dec (z mod 2) 0) as [Heven | Hodd]; [| now right].
    exfalso.
    pose proof (never_asserts_even image z Heven (mkState image []))
      as Hpass.
    unfold triangulize in Hfail.
    destruct (triangulize_body polygon image (PyInt z) (mkState image []))
      as [r st].
    simpl in Hfail, Hpass. exact (Hpass Hfail).
Qed.

End Asserts.

(** C3 as stated fails: the [int] [-2] is not positive, yet it passes
    the assertion; the image is returned with no tile visited. *)
Lemma negative_even_tile_size_accepted :
  ~ 0 < -2 /\
  triangulize no_draw (solid 4 4 red) (PyInt (-2))
  = (ok (solid 4 4 red), []).
Proof. split; [lia | reflexivity]. Qed.

(** ** Split Selector: where the code and the first-minimal rule agree *)

Lemma is_minimal_le c cands p :
  is_minimal c cands = true -> In p cands -> color_le c (snd p).
Proof.
  unfold is_minimal. rewrite forallb_forall. intros H Hp. now apply H.
Qed.

(** When the first minimal pair is a Right pair the code answers Right
    too; the two rules part only when the code answers Right and the
    first minimal pair is a Left pair. *)
Lemma spec_right_then_right n e s w :
  spec_split n e s w = Some Right -> choose_split n e s w = ok Right.
Proof.
  intros Hspec.
  destruct (choose_split_closest n e s w) as (c & Hin & Hmin & ->).
  assert (Hc : forall id d, In (id, d) (candidates n e s w) ->
                            is_minimal d (candidates n e s w) = true ->
                            c = d).
  { intros id d Hd Hmind. apply color_le_antisym.
    - apply Hmin. unfold candidates in Hd. simpl in Hd.
      destruct Hd as [H | [H | [H | [H | []]]]]; inversion H; simpl; auto.
    - unfold candidates in Hin.
      destruct Hin as [<- | [<- | [<- | [<- | []]]]].
      + apply (is_minimal_le d _ (NE, get_color_dist n e) Hmind).
        simpl; auto.
      + apply (is_minimal_le d _ (NW, get_color_dist n w) Hmind).
        simpl; auto.
      + apply (is_minimal_le d _ (SE, get_color_dist s e) Hmind).
        simpl; auto.
      + apply (is_minimal_le d _ (SW, get_color_dist s w) Hmind).
        simpl; auto 6. }
  unfold spec_split, first_minimal in Hspec.
  set (P := fun pc : pair_id * color =>
              is_minimal (snd pc) (candidates n e s w)) in Hspec.
  unfold candidates in Hspec. cbn [find] in Hspec.
  destruct (P (NE, get_color_dist n e)) eqn:E1.
  - rewrite (Hc NE _ (or_introl eq_refl) E1).
    now rewrite (proj2 (color_eqb_eq _ _) eq_refl).
  - destruct (P (NW, get_color_dist n w)) eqn:E2; [discriminate |].
    destruct (P (SE, get_color_dist s e)) eqn:E3; [discriminate |].
    destruct (P (SW, get_color_dist s w)) eqn:E4; [| discriminate].
    assert (Hsw : In (SW, get_color_dist s w) (candidates n e s w))
      by (simpl; auto 6).
    rewrite (Hc SW _ Hsw E4).
    now rewrite (proj2 (color_eqb_eq _ _) eq_refl), orb_true_r.
Qed.

(** ** Tile size two *)

Lemma get_average_color_cons c l :
  exists avg, get_average_color (c :: l) = ok avg.
Proof.
  unfold get_average_color, reduce. rewrite rbind_ok.
  destruct (fold_left color_reducer l c) as [[tr tg] tb].
  assert (Hlen : Z.of_nat (length (c :: l)) <> 0) by (simpl; lia).
  rewrite !py_div_nonzero, !rbind_ok by exact Hlen. eauto.
Qed.

Lemma pix_in_bounds x y st :
  in_bounds (buffer st) x y = true ->
  pix x y st = (ok (getdata (buffer st) x y), log (PixelRead x y) st).
Proof. intros Hin. unfold pix, getpixel. now rewrite Hin. Qed.

(** Reads inside the image succeed, leave the image as it is and are
    traced in order. *)
Lemma sample_in_bounds coords st :
  (forall p, In p coords -> in_bounds (buffer st) (fst p) (snd p) = true) ->
  sample coords st
  = (ok (map (fun p => getdata (buffer st) (fst p) (snd p)) coords),
     mkState (buffer st)
             (trace st ++ map (fun p => PixelRead (fst p) (snd p)) coords)).
Proof.
  revert st. induction coords as [| [x y] coords IH]; intros st Hin.
  - destruct st as [im tr]. simpl. now rewrite app_nil_r.
  - unfold sample in *. cbn [mapM]. unfold bind at 1.
    rewrite pix_in_bounds by (apply (Hin (x, y)); now left).
    unfold bind at 1.
    rewrite IH by (intros p Hp; apply Hin; now right).
    simpl. now rewrite <- app_assoc.
Qed.

(** The tile at the origin, with [tile_size = 2], inside the image: the
    two pixels of North and the two of East are read, and the average
    of the empty South list raises. *)
Lemma triangle_colors_origin_tile_2 st :
  2 <= width (buffer st) -> 2 <= height (buffer st) ->
  triangle_colors 0 0 2 st
  = (raise TypeError,
     mkState (buffer st)
             (trace st ++ [PixelRead 0 0; PixelRead 1 0;
                           PixelRead 0 0; PixelRead 0 1])).
Proof.
  intros Hw Hh.
  assert (Hin : forall tr p, In p [(0, 0); (1, 0); (0, 1)] ->
            in_bounds (buffer (mkState (buffer st) tr)) (fst p) (snd p) = true).
  { intros tr p Hp. apply in_bounds_iff. simpl in *.
    destruct Hp as [<- | [<- | [<- | []]]]; simpl; lia. }
  unfold triangle_colors, triangle_regions.
  change (north_coords 0 0 2) with [(0, 0); (1, 0)].
  change (south_coords 0 0 2) with (@nil (Z * Z)).
  change (east_coords 0 0 2) with [(0, 0); (0, 1)].
  change (west_coords 0 0 2) with (@nil (Z * Z)).
  destruct st as [im tr]. cbn [buffer trace] in *.
  unfold bind.
  rewrite sample_in_bounds
    by (intros p Hp; apply (Hin tr); simpl in *; tauto).
  cbn [buffer trace map fst snd].
  rewrite (sample_in_bounds []) by (intros p []).
  cbn [buffer trace map fst snd].
  rewrite sample_in_bounds
    by (intros p Hp; apply (Hin tr); simpl in *; tauto).
  cbn [buffer trace map fst snd].
  rewrite (sample_in_bounds []) by (intros p []).
  cbn [buffer trace map fst snd]. unfold ret, lift.
  destruct (get_average_color_cons (getdata im 0 0) [getdata im 1 0])
    as [cn Hn].
  destruct (get_average_color_cons (getdata im 0 0) [getdata im 0 1])
    as [ce He].
  unfold ok in *. cbv iota beta. rewrite Hn, He. cbn [rbind].
  rewrite get_average_color_nil. cbn [rbind raise].
  rewrite !app_nil_r, <- !app_assoc. reflexivity.
Qed.

Lemma xrange_step_head stop step :
  0 < step -> 0 < stop ->
  exists rest, xrange_step 0 stop step = ok (0 :: rest).
Proof.
  intros Hstep Hstop. rewrite xrange_step_positive by exact Hstep.
  assert (Hn : 1 <= (stop - 0 + step - 1) / step).
  { apply Z.div_le_lower_bound; lia. }
  destruct (Z.to_nat ((stop - 0 + step - 1) / step)) as [| n] eqn:En;
    [lia |].
  simpl. eauto.
Qed.

Lemma rmapM_ok {A B} (f : A -> result B) (g : A -> B) l :
  (forall a, f a = ok (g a)) -> rmapM f l = ok (map g l).
Proof.
  intros Hf. induction l as [| a l IH]; simpl; [reflexivity |].
  rewrite Hf, rbind_ok, IH, rbind_ok. reflexivity.
Qed.

Lemma iter_tiles_head image tile_size :
  0 < tile_size -> 0 < width image -> 0 < height image ->
  exists rest, iter_tiles image tile_size = ok ((0, 0) :: rest).
Proof.
  intros Hts Hw Hh. unfold iter_tiles, size.
  destruct (xrange_step_head (height image) tile_size Hts Hh) as [ys ->].
  destruct (xrange_step_head (width image) tile_size Hts Hw) as [xs Hxs].
  rewrite rbind_ok.
  rewrite (rmapM_ok _ (fun y => map (fun x => (x, y)) (0 :: xs)))
    by (intros y; now rewrite Hxs, rbind_ok).
  rewrite rbind_ok. simpl. eauto.
Qed.

Section TileSizeTwo.

Variable polygon : list (Z * Z) -> string -> Image -> Image.

(** X1: with [tile_size = 2] no image of at least one tile gets
    through: cropping succeeds, and the first tile already stops the
    run with [TypeError] at the empty South list, after four reads and
    before anything is drawn. *)
Lemma tile_size_2_always_fails image :
  2 <= width image -> 2 <= height image ->
  exists image',
    prep_image image 2 = ok image' /\
    triangulize polygon image (PyInt 2)
    = (raise TypeError,
       [PixelRead 0 0; PixelRead 1 0; PixelRead 0 0; PixelRead 0 1]).
Proof.
  intros Hw Hh.
  destruct (prep_image_size image 2) as (image' & Hprep & Ew & Eh);
    [lia | lia | lia |].
  assert (Hw' : 2 <= width image').
  { rewrite Ew. pose proof (Z.div_le_lower_bound (width image) 2 1). lia. }
  assert (Hh' : 2 <= height image').
  { rewrite Eh. pose proof (Z.div_le_lower_bound (height image) 2 1). lia. }
  destruct (iter_tiles_head image' 2) as [rest Htiles]; [lia | lia | lia |].
  exists image'. split; [exact Hprep |].
  unfold triangulize, triangulize_body, py_assert.
  cbn [isinstance_int value andb].
  change (2 mod 2 =? 0) with true. cbv iota zeta.
  rewrite bind_lift_ok, Hprep, bind_lift_ok, bind_load, Htiles, bind_lift_ok.
  cbn [forM_ trace]. unfold bind at 1 2. unfold process_tile.
  unfold bind at 1.
  rewrite triangle_colors_origin_tile_2 by (simpl; lia).
  reflexivity.
Qed.

End TileSizeTwo.

(** ** Color Math: distances *)

Lemma get_color_dist_zero a b : get_color_dist a b = (0, 0, 0) <-> a = b.
Proof.
  destruct a as [[r1 g1] b1], b as [[r2 g2] b2]; simpl. split.
  - intros H. inversion H. f_equal; [f_equal |]; lia.
  - intros H. inversion H; subst. now rewrite !Z.sub_diag.
Qed.

(** X2: the distance between two colours does not depend on their
    order, and it is black, [(0, 0, 0)], exactly when the two colours
    are the same. *)
Theorem get_color_dist_symmetric_zero_iff_equal (a b : color) :
  get_color_dist a b = get_color_dist b a /\
  (get_color_dist a b = (0, 0, 0) <-> a = b).
Proof.
  split; [apply get_color_dist_sym | apply get_color_dist_zero].
Qed.

(** X3: every component of a distance is non-negative and obeys the
    triangle inequality: going from [a] to [c] through [b] is never
    shorter than going directly. *)
Theorem get_color_dist_triangle (a b c : color) :
  0 <= red_of (get_color_dist a c)
    <= red_of (get_color_dist a b) + red_of (get_color_dist b c) /\
  0 <= green_of (get_color_dist a c)
    <= green_of (get_color_dist a b) + green_of (get_color_dist b c) /\
  0 <= blue_of (get_color_dist a c)
    <= blue_of (get_color_dist a b) + blue_of (get_color_dist b c).
Proof.
  destruct a as [[r1 g1] b1], b as [[r2 g2] b2], c as [[r3 g3] b3].
  unfold red_of, green_of, blue_of; simpl. lia.
Qed.

(** ** Color Math: averages *)

Lemma fold_left_color_reducer l acc :
  fold_left color_reducer l acc
  = (red_of acc + Zsum (map red_of l),
     green_of acc + Zsum (map green_of l),
     blue_of acc + Zsum (map blue_of l)).
Proof.
  revert acc. induction l as [| c l IH]; intros [[r g] b].
  - unfold red_of, green_of, blue_of; simpl. now rewrite !Z.add_0_r.
  - simpl fold_left. rewrite IH. destruct c as [[r' g'] b'].
    unfold red_of, green_of, blue_of, Zsum; simpl.
    f_equal; [f_equal |]; lia.
Qed.

Lemma get_average_color_nonempty c l :
  get_average_color (c :: l)
  = ok (Zsum (map red_of (c :: l)) / Z.of_nat (length (c :: l)),
        Zsum (map green_of (c :: l)) / Z.of_nat (length (c :: l)),
        Zsum (map blue_of (c :: l)) / Z.of_nat (length (c :: l))).
Proof.
  unfold get_average_color, reduce.
  rewrite fold_left_color_reducer, rbind_ok.
  assert (Hlen : Z.of_nat (length (c :: l)) <> 0) by (simpl; lia).
  rewrite !py_div_nonzero, !rbind_ok by exact Hlen.
  reflexivity.
Qed.

(** X4: the average of a non-empty list is, component by component,
    the floor of the sum of that component over the number of colours. *)
Theorem get_average_color_is_mean (c : color) (l : list color) :
  get_average_color (c :: l)
  = ok (Zsum (map red_of (c :: l)) / Z.of_nat (length (c :: l)),
        Zsum (map green_of (c :: l)) / Z.of_nat (length (c :: l)),
        Zsum (map blue_of (c :: l)) / Z.of_nat (length (c :: l))).
Proof. exact (get_average_color_nonempty c l). Qed.

(** X5: [get_average_color] raises, and then [TypeError], exactly on
    the empty list; on every other list it returns a colour. *)
Theorem get_average_color_fails_iff_empty (l : list color) :
  (get_average_color l = raise TypeError <-> l = []) /\
  ((exists avg, get_average_color l = ok avg) <-> l <> []).
Proof.
  destruct l as [| c l].
  - split; split; intros H; try reflexivity; try congruence.
    destruct H as [avg H]. discriminate.
  - rewrite get_average_color_nonempty.
    split; split; intros H; try discriminate; eauto.
Qed.

Lemma Zsum_permutation l l' : Permutation l l' -> Zsum l = Zsum l'.
Proof. induction 1; unfold Zsum in *; simpl; lia. Qed.

(** X6: the average does not depend on the order of the colours: two
    lists that are permutations of each other have the same average
    (or both fail). *)
Theorem get_average_color_permutation (l l' : list color) :
  Permutation l l' -> get_average_color l = get_average_color l'.
Proof.
  intros H. destruct l as [| c l], l' as [| c' l'].
  - reflexivity.
  - apply Permutation_nil in H. discriminate.
  - symmetry in H. apply Permutation_nil in H. discriminate.
  - rewrite !get_average_color_nonempty.
    rewrite (Permutation_length H).
    rewrite (Zsum_permutation _ _ (Permutation_map red_of H)).
    rewrite (Zsum_permutation _ _ (Permutation_map green_of H)).
    rewrite (Zsum_permutation _ _ (Permutation_map blue_of H)).
    reflexivity.
Qed.

Lemma Zsum_bounds lo hi l :
  (forall x, In x l -> lo <= x <= hi) ->
  Z.of_nat (length l) * lo <= Zsum l <= Z.of_nat (length l) * hi.
Proof.
  induction l as [| a l IH]; intros H.
  - simpl. lia.
  - specialize (IH (fun x Hx => H x (or_intror Hx))).
    pose proof (H a (or_introl eq_refl)).
    simpl length. rewrite Nat2Z.inj_succ. unfold Zsum in *; simpl. lia.
Qed.

Lemma div_between lo hi s n :
  0 < n -> n * lo <= s <= n * hi -> lo <= s / n <= hi.
Proof.
  intros Hn [H1 H2]. split.
  - apply Z.div_le_lower_bound; lia.
  - apply Z.div_le_upper_bound; lia.
Qed.

Lemma get_average_color_within lo hi c l :
  (forall x, In x (c :: l) -> color_between lo hi x) ->
  exists avg, get_average_color (c :: l) = ok avg /\ color_between lo hi avg.
Proof.
  intros H. rewrite get_average_color_nonempty.
  eexists; split; [reflexivity |].
  assert (Hn : 0 < Z.of_nat (length (c :: l))) by (simpl; lia).
  assert (Hcomp : forall f : color -> Z,
            (forall x, In x (c :: l) -> f lo <= f x <= f hi) ->
            f lo <= Zsum (map f (c :: l)) / Z.of_nat (length (c :: l)) <= f hi).
  { intros f Hf. apply div_between; [exact Hn |].
    rewrite <- (length_map f). apply Zsum_bounds.
    intros x Hx. apply in_map_iff in Hx as (y & <- & Hy). now apply Hf. }
  repeat split; apply (Hcomp _); intros x Hx; apply H in Hx; apply Hx.
Qed.

(** X7: when every component of every colour of a non-empty list lies
    between the same bounds, the average exists and lies between them
    too; so averaging colours in 0..255 stays in 0..255. *)
Theorem get_average_color_stays_in_range (lo hi c : color) (l : list color) :
  (forall x, In x (c :: l) -> color_between lo hi x) ->
  exists avg, get_average_color (c :: l) = ok avg /\ color_between lo hi avg.
Proof. exact (get_average_color_within lo hi c l). Qed.

(** X8: the average of any positive number of copies of one colour is
    that colour. *)
Theorem get_average_color_repeat (c : color) (n : nat) :
  get_average_color (repeat c (S n)) = ok c.
Proof.
  simpl repeat.
  destruct (get_average_color_within c c c (repeat c n)) as (avg & -> & Hb).
  - intros x [<- | Hx]; [| apply repeat_spec in Hx; subst x];
      unfold color_between; lia.
  - f_equal. destruct avg as [[r g] b], c as [[r' g'] b'].
    unfold color_between, red_of, green_of, blue_of in Hb; simpl in Hb.
    f_equal; [f_equal |]; lia.
Qed.

(** ** Region Sampler: shape of the regions *)

(** X9: for an even [tile_size = 2q >= 0], North and East each list
    [q (q + 1)] pixels, South and West each [q (q - 1)]. *)
Theorem region_sizes_each (tile_x tile_y tile_size : Z) :
  0 <= tile_size -> tile_size mod 2 = 0 ->
  Z.of_nat (length (north_coords tile_x tile_y tile_size))
  = tile_size / 2 * (tile_size / 2 + 1) /\
  Z.of_nat (length (east_coords tile_x tile_y tile_size))
  = tile_size / 2 * (tile_size / 2 + 1) /\
  Z.of_nat (length (south_coords tile_x tile_y tile_size))
  = tile_size / 2 * (tile_size / 2 - 1) /\
  Z.of_nat (length (west_coords tile_x tile_y tile_size))
  = tile_size / 2 * (tile_size / 2 - 1).
Proof.
  intros Hpos Heven.
  pose proof (twice_length_north tile_x tile_y tile_size Hpos Heven) as HN.
  pose proof (twice_length_south tile_x tile_y tile_size Hpos Heven) as HS.
  pose proof (twice_length_east tile_x tile_y tile_size Hpos Heven) as HE.
  pose proof (twice_length_west tile_x tile_y tile_size Hpos Heven) as HW.
  pose proof (even_halves _ Heven) as Hq.
  cbv zeta in HN, HS, HE, HW.
  set (q := tile_size / 2) in *.
  repeat split; nia.
Qed.

Lemma map_flat_map {A B C} (f : B -> C) (g : A -> list B) (l : list A) :
  map f (flat_map g l) = flat_map (fun a => map f (g a)) l.
Proof.
  induction l as [| a l IH]; simpl; [reflexivity |].
  now rewrite map_app, IH.
Qed.

(** X10: the East list is the North list of the transposed tile with
    every position transposed, in the same order, and West is South
    transposed in the same way. *)
Theorem east_is_north_transposed (tile_x tile_y tile_size : Z) :
  east_coords tile_x tile_y tile_size
  = map transpose (north_coords tile_y tile_x tile_size) /\
  west_coords tile_x tile_y tile_size
  = map transpose (south_coords tile_y tile_x tile_size).
Proof.
  unfold east_coords, west_coords, north_coords, south_coords.
  split; rewrite map_flat_map; apply flat_map_ext; intros a;
    rewrite map_map; reflexivity.
Qed.

(** X11: no region lists a pixel twice, whatever the tile and the
    tile size, so every average weights each pixel of its region once. *)
Theorem regions_list_no_pixel_twice (tile_x tile_y tile_size : Z) :
  NoDup (north_coords tile_x tile_y tile_size) /\
  NoDup (east_coords tile_x tile_y tile_size) /\
  NoDup (south_coords tile_x tile_y tile_size) /\
  NoDup (west_coords tile_x tile_y tile_size).
Proof.
  repeat split.
  - apply NoDup_north_coords.
  - apply NoDup_east_coords.
  - apply NoDup_south_coords.
  - apply NoDup_west_coords.
Qed.

(** ** Split Selector: symmetries *)

Lemma choose_split_total n e s w :
  choose_split n e s w = ok Right \/ choose_split n e s w = ok Left.
Proof.
  destruct (choose_split_closest n e s w) as (c & _ & _ & ->).
  destruct (_ || _); auto.
Qed.

Lemma choose_split_right_iff n e s w :
  choose_split n e s w = ok Right <->
  is_least (get_color_dist n e) (distances n e s w) \/
  is_least (get_color_dist s w) (distances n e s w).
Proof.
  destruct (choose_split_closest n e s w) as (c & Hin & Hmin & ->).
  fold (distances n e s w) in Hin, Hmin. split.
  - intros H.
    destruct (color_eqb c (get_color_dist n e)
              || color_eqb c (get_color_dist s w)) eqn:E; [| discriminate].
    apply orb_true_iff in E as [E | E]; apply color_eqb_eq in E; subst c;
      [left | right]; exact Hmin.
  - intros [H | H].
    + assert (Hc : c = get_color_dist n e).
      { apply color_le_antisym; [apply Hmin; simpl; auto | now apply H]. }
      rewrite Hc, (proj2 (color_eqb_eq _ _) eq_refl). reflexivity.
    + assert (Hc : c = get_color_dist s w).
      { apply color_le_antisym; [apply Hmin; simpl; auto 6 | now apply H]. }
      rewrite Hc, (proj2 (color_eqb_eq _ _) eq_refl), orb_true_r.
      reflexivity.
Qed.

Lemma choose_split_eq_of_iff n e s w n' e' s' w' :
  (choose_split n e s w = ok Right <-> choose_split n' e' s' w' = ok Right) ->
  choose_split n e s w = choose_split n' e' s' w'.
Proof.
  intros [H1 H2].
  destruct (choose_split_total n e s w) as [H | H],
           (choose_split_total n' e' s' w') as [H' | H'].
  - congruence.
  - rewrite (H1 H) in H'. discriminate.
  - rewrite (H2 H') in H. discriminate.
  - congruence.
Qed.

(** X12: the split does not change when the tile is turned by half a
    turn (North and South exchanged, East and West exchanged), nor when
    it is transposed (North and East exchanged, South and West
    exchanged). *)
Theorem choose_split_symmetries (n e s w : color) :
  choose_split s w n e = choose_split n e s w /\
  choose_split e n w s = choose_split n e s w.
Proof.
  split; apply choose_split_eq_of_iff; rewrite !choose_split_right_iff;
    unfold distances, is_least.
  - split; (intros [H | H]; [right | left]); intros c Hc; apply H;
      simpl in *; tauto.
  - rewrite (get_color_dist_sym e n), (get_color_dist_sym e s),
      (get_color_dist_sym w n), (get_color_dist_sym w s).
    split; (intros [H | H]; [left | right]); intros c Hc; apply H;
      simpl in *; tauto.
Qed.

Lemma zero_le_dist a b : color_le (0, 0, 0) (get_color_dist a b).
Proof.
  apply color_le_iff.
  destruct a as [[r1 g1] b1], b as [[r2 g2] b2]; simpl. lia.
Qed.

Lemma zero_is_least n e s w : is_least (0, 0, 0) (distances n e s w).
Proof.
  intros c Hc. unfold distances in Hc. simpl in Hc.
  destruct Hc as [<- | [<- | [<- | [<- | []]]]]; apply zero_le_dist.
Qed.

(** X13: when North and East have the same colour, or South and West
    have, the split is Right; a tile of one colour is among them. *)
Theorem equal_neighbours_split_right (n e s w : color) :
  n = e \/ s = w -> choose_split n e s w = ok Right.
Proof.
  intros H. apply choose_split_right_iff.
  destruct H as [<- | <-]; [left | right];
    rewrite get_color_dist_self; apply zero_is_least.
Qed.

(** ** Image Driver: the tiles of an image *)

Lemma ceil_exact (w tile_size : Z) :
  0 < tile_size -> w mod tile_size = 0 ->
  (w - 0 + tile_size - 1) / tile_size = w / tile_size.
Proof.
  intros Hts Hmod.
  assert (Hw : w = tile_size * (w / tile_size))
    by (apply Z_div_exact_full_2; [lia | exact Hmod]).
  set (k := w / tile_size) in *.
  replace (w - 0 + tile_size - 1) with (k * tile_size + (tile_size - 1)) by lia.
  rewrite Z.div_add_l by lia. rewrite (Z.div_small (tile_size - 1)) by lia.
  lia.
Qed.

Lemma in_xrange_step stop step xs x :
  0 < step -> xrange_step 0 stop step = ok xs ->
  (In x xs <-> 0 <= x < stop /\ x mod step = 0).
Proof.
  intros Hs H. rewrite xrange_step_positive in H by exact Hs.
  inversion H; subst xs; clear H.
  set (Q := (stop - 0 + step - 1) / step).
  assert (HQ : step * Q <= stop - 0 + step - 1)
    by (apply Z.mul_div_le; exact Hs).
  rewrite in_map_iff. split.
  - intros (i & <- & Hi). apply in_seq in Hi.
    split; [| try rewrite Z.add_0_l; apply Z.mod_mul; lia].
    nia.
  - intros [Hx Hmod].
    assert (Hxq : x = step * (x / step))
      by (apply Z_div_exact_full_2; [lia | exact Hmod]).
    assert (Hq0 : 0 <= x / step) by (apply Z.div_pos; lia).
    assert (HqQ : x / step + 1 <= Q).
    { apply Z.div_le_lower_bound; [exact Hs | nia]. }
    exists (Z.to_nat (x / step)). split.
    + rewrite Z2Nat.id by exact Hq0. lia.
    + apply in_seq. lia.
Qed.

Lemma NoDup_xrange_step stop step xs :
  0 < step -> xrange_step 0 stop step = ok xs -> NoDup xs.
Proof.
  intros Hs H. rewrite xrange_step_positive in H by exact Hs.
  inversion H; subst xs; clear H.
  apply Injective_map_NoDup; [| apply seq_NoDup].
  intros i j Hij. nia.
Qed.

Lemma length_xrange_step stop step xs :
  0 < step -> xrange_step 0 stop step = ok xs ->
  length xs = Z.to_nat ((stop - 0 + step - 1) / step).
Proof.
  intros Hs H. rewrite xrange_step_positive in H by exact Hs.
  inversion H; subst xs; clear H.
  now rewrite length_map, length_seq.
Qed.

Lemma sorted_xrange_step stop step xs :
  0 < step -> xrange_step 0 stop step = ok xs -> StronglySorted Z.lt xs.
Proof.
  intros Hs H. rewrite xrange_step_positive in H by exact Hs.
  inversion H; subst xs; clear H.
  generalize (Z.to_nat ((stop - 0 + step - 1) / step)) as n.
  generalize 0%nat as a. intros a n. revert a.
  induction n as [| n IH]; intros a; simpl; constructor.
  - apply IH.
  - apply Forall_forall. intros x Hx.
    apply in_map_iff in Hx as (i & <- & Hi). apply in_seq in Hi. nia.
Qed.

(** The tiles are the grid of the two ranges, row by row. *)
Lemma iter_tiles_grid image tile_size :
  0 < tile_size ->
  exists xs ys,
    xrange_step 0 (width image) tile_size = ok xs /\
    xrange_step 0 (height image) tile_size = ok ys /\
    iter_tiles image tile_size
    = ok (flat_map (fun y => map (fun x => (x, y)) xs) ys).
Proof.
  intros Hts.
  destruct (xrange_step 0 (width image) tile_size) as [e | xs] eqn:Hxs;
    [rewrite xrange_step_positive in Hxs by exact Hts; discriminate |].
  destruct (xrange_step 0 (height image) tile_size) as [e | ys] eqn:Hys;
    [rewrite xrange_step_positive in Hys by exact Hts; discriminate |].
  exists xs, ys. split; [reflexivity | split; [reflexivity |]].
  unfold iter_tiles, size. rewrite Hys. fold (@ok (list Z) ys).
  rewrite rbind_ok.
  rewrite (rmapM_ok _ (fun y => map (fun x => (x, y)) xs)).
  - rewrite rbind_ok, flat_map_concat_map. reflexivity.
  - intros y. rewrite Hxs. reflexivity.
Qed.

Lemma length_grid (xs ys : list Z) :
  length (flat_map (fun y => map (fun x => (x, y)) xs) ys)
  = (length ys * length xs)%nat.
Proof.
  induction ys as [| y ys IH]; simpl; [reflexivity |].
  now rewrite length_app, length_map, IH.
Qed.

Lemma in_grid (xs ys : list Z) x y :
  In (x, y) (flat_map (fun y => map (fun x => (x, y)) xs) ys) <->
  In x xs /\ In y ys.
Proof.
  rewrite in_flat_map. split.
  - intros (y' & Hy' & Hin). apply in_map_iff in Hin as (x' & Heq & Hx').
    inversion Heq; subst. auto.
  - intros [Hx Hy]. exists y. split; [exact Hy |].
    apply in_map_iff. exists x. auto.
Qed.

Lemma in_iter_tiles image tile_size tiles x y :
  0 < tile_size -> iter_tiles image tile_size = ok tiles ->
  (In (x, y) tiles <->
   (0 <= x < width image /\ x mod tile_size = 0) /\
   (0 <= y < height image /\ y mod tile_size = 0)).
Proof.
  intros Hts Htiles.
  destruct (iter_tiles_grid image tile_size Hts) as (xs & ys & Hxs & Hys & H).
  rewrite H in Htiles. inversion Htiles; subst tiles; clear Htiles.
  rewrite in_grid.
  rewrite (in_xrange_step _ _ _ x Hts Hxs), (in_xrange_step _ _ _ y Hts Hys).
  reflexivity.
Qed.

(** X14: for a positive [tile_size], [iter_tiles] yields, each once,
    exactly the positions of the image whose two coordinates are
    multiples of [tile_size]. *)
Theorem iter_tiles_corners (image : Image) (tile_size : Z) :
  0 < tile_size ->
  exists tiles,
    iter_tiles image tile_size = ok tiles /\
    NoDup tiles /\
    forall x y,
      In (x, y) tiles <->
      (0 <= x < width image /\ x mod tile_size = 0) /\
      (0 <= y < height image /\ y mod tile_size = 0).
Proof.
  intros Hts.
  destruct (iter_tiles_grid image tile_size Hts) as (xs & ys & Hxs & Hys & H).
  eexists. split; [exact H | split].
  - apply NoDup_flat_map with (key := snd).
    + exact (NoDup_xrange_step _ _ _ Hts Hys).
    + intros y. apply NoDup_row. exact (NoDup_xrange_step _ _ _ Hts Hxs).
    + intros y p Hp. apply in_map_iff in Hp as (x & <- & _). reflexivity.
  - intros x y. now apply in_iter_tiles.
Qed.

Lemma length_iter_tiles image tile_size tiles :
  0 < tile_size -> 0 <= width image -> 0 <= height image ->
  iter_tiles image tile_size = ok tiles ->
  Z.of_nat (length tiles)
  = (width image - 0 + tile_size - 1) / tile_size
    * ((height image - 0 + tile_size - 1) / tile_size).
Proof.
  intros Hts Hw Hh Htiles.
  destruct (iter_tiles_grid image tile_size Hts) as (xs & ys & Hxs & Hys & H).
  rewrite H in Htiles. inversion Htiles; subst tiles; clear Htiles.
  rewrite length_grid.
  rewrite (length_xrange_step _ _ _ Hts Hxs), (length_xrange_step _ _ _ Hts Hys).
  assert (0 <= (width image - 0 + tile_size - 1) / tile_size)
    by (apply Z.div_pos; lia).
  assert (0 <= (height image - 0 + tile_size - 1) / tile_size)
    by (apply Z.div_pos; lia).
  rewrite Nat2Z.inj_mul, !Z2Nat.id by assumption. lia.
Qed.

(** X15: for a positive [tile_size] the number of tiles is the
    product of the two side lengths over [tile_size], rounded up; when
    both sides are multiples of [tile_size] it is the product of the
    exact quotients. *)
Theorem iter_tiles_count (image : Image) (tile_size : Z) :
  0 < tile_size -> 0 <= width image -> 0 <= height image ->
  exists tiles,
    iter_tiles image tile_size = ok tiles /\
    Z.of_nat (length tiles)
    = (width image + tile_size - 1) / tile_size
      * ((height image + tile_size - 1) / tile_size) /\
    (width image mod tile_size = 0 -> height image mod tile_size = 0 ->
     Z.of_nat (length tiles)
     = width image / tile_size * (height image / tile_size)).
Proof.
  intros Hts Hw Hh.
  destruct (iter_tiles_grid image tile_size Hts) as (xs & ys & _ & _ & H).
  eexists. split; [exact H |].
  pose proof (length_iter_tiles image tile_size _ Hts Hw Hh H) as Hlen.
  split.
  - rewrite Hlen. now rewrite !Z.sub_0_r.
  - intros Hwm Hhm. rewrite Hlen.
    now rewrite !ceil_exact by assumption.
Qed.

Lemma sorted_grid (xs ys : list Z) :
  StronglySorted Z.lt xs -> StronglySorted Z.lt ys ->
  StronglySorted tile_before
    (flat_map (fun y => map (fun x => (x, y)) xs) ys).
Proof.
  intros Hxs Hys. induction Hys as [| y ys Hys IH Hall]; simpl.
  - constructor.
  - assert (Hrow : forall l, StronglySorted Z.lt l ->
              (forall rest, StronglySorted tile_before rest ->
                 (forall p, In p rest -> y < snd p) ->
                 StronglySorted tile_before
                   (map (fun x => (x, y)) l ++ rest))).
    { intros l Hl. induction Hl as [| x l Hl IHl Hx]; intros rest Hrest Hlow.
      - exact Hrest.
      - simpl. constructor; [now apply IHl |].
        apply Forall_forall. intros p Hp. apply in_app_or in Hp as [Hp | Hp].
        + apply in_map_iff in Hp as (x' & <- & Hx'). right. simpl.
          split; [reflexivity |].
          rewrite Forall_forall in Hx. now apply Hx.
        + left. simpl. now apply Hlow. }
    apply Hrow; [exact Hxs | exact IH |].
    intros [px py] Hp. apply in_grid in Hp as [_ Hpy]. simpl.
    rewrite Forall_forall in Hall. now apply Hall.
Qed.

(** X16: the tiles come row by row: top to bottom, and left to right
    inside a row. *)
Theorem iter_tiles_row_major (image : Image) (tile_size : Z) :
  0 < tile_size ->
  exists tiles,
    iter_tiles image tile_size = ok tiles /\
    StronglySorted tile_before tiles.
Proof.
  intros Hts.
  destruct (iter_tiles_grid image tile_size Hts) as (xs & ys & Hxs & Hys & H).
  eexists. split; [exact H |].
  apply sorted_grid.
  - exact (sorted_xrange_step _ _ _ Hts Hxs).
  - exact (sorted_xrange_step _ _ _ Hts Hys).
Qed.

Lemma tile_inside (w tile_size x : Z) :
  0 < tile_size -> w mod tile_size = 0 ->
  0 <= x < w -> x mod tile_size = 0 -> x + tile_size <= w.
Proof.
  intros Hts Hw Hx Hxm.
  assert (Hwq : w = tile_size * (w / tile_size))
    by (apply Z_div_exact_full_2; [lia | exact Hw]).
  assert (Hxq : x = tile_size * (x / tile_size))
    by (apply Z_div_exact_full_2; [lia | exact Hxm]).
  set (a := x / tile_size) in *. set (b := w / tile_size) in *.
  assert (Hab : a < b) by nia.
  rewrite Hwq, Hxq. nia.
Qed.

Lemma floor_in_tile (tile_size p : Z) :
  0 < tile_size ->
  (p / tile_size * tile_size) mod tile_size = 0 /\
  p / tile_size * tile_size <= p < p / tile_size * tile_size + tile_size.
Proof.
  intros Hts. split; [apply Z.mod_mul; lia |].
  pose proof (Z.div_mod p tile_size ltac:(lia)).
  pose proof (Z.mod_pos_bound p tile_size Hts). lia.
Qed.

Lemma tile_unique (tile_size x p : Z) :
  0 < tile_size -> x mod tile_size = 0 ->
  x <= p < x + tile_size -> x = p / tile_size * tile_size.
Proof.
  intros Hts Hxm Hp.
  assert (Hxq : x = tile_size * (x / tile_size))
    by (apply Z_div_exact_full_2; [lia | exact Hxm]).
  assert (Hq : p / tile_size = x / tile_size).
  { symmetry. apply (Z.div_unique p tile_size (x / tile_size) (p - x)); lia. }
  rewrite Hq. lia.
Qed.

(** X17: when both sides of the image are multiples of a positive
    [tile_size], every tile lies inside the image and every pixel of
    the image lies in exactly one tile. *)
Theorem tiles_partition_prepped_image (image : Image) (tile_size : Z) :
  0 < tile_size ->
  width image mod tile_size = 0 -> height image mod tile_size = 0 ->
  exists tiles,
    iter_tiles image tile_size = ok tiles /\
    (forall x y, In (x, y) tiles ->
       0 <= x /\ x + tile_size <= width image /\
       0 <= y /\ y + tile_size <= height image) /\
    (forall px py, in_bounds image px py = true ->
       exists t,
         In t tiles /\ in_tile (fst t) (snd t) tile_size (px, py) /\
         forall t', In t' tiles ->
                    in_tile (fst t') (snd t') tile_size (px, py) -> t' = t).
Proof.
  intros Hts Hwm Hhm.
  destruct (iter_tiles_grid image tile_size Hts) as (xs & ys & _ & _ & H).
  eexists. split; [exact H | split].
  - intros x y Hin.
    apply (in_iter_tiles image tile_size _ x y Hts H) in Hin
      as [[Hx Hxm] [Hy Hym]].
    pose proof (tile_inside _ _ _ Hts Hwm Hx Hxm).
    pose proof (tile_inside _ _ _ Hts Hhm Hy Hym). lia.
  - intros px py Hin. apply in_bounds_iff in Hin as [Hpx Hpy].
    destruct (floor_in_tile tile_size px Hts) as [Hxm Hxr].
    destruct (floor_in_tile tile_size py Hts) as [Hym Hyr].
    exists (px / tile_size * tile_size, py / tile_size * tile_size).
    split; [| split].
    + apply (in_iter_tiles image tile_size _ _ _ Hts H).
      assert (0 <= px / tile_size) by (apply Z.div_pos; lia).
      assert (0 <= py / tile_size) by (apply Z.div_pos; lia).
      repeat split; try assumption; nia.
    + unfold in_tile; simpl. lia.
    + intros [x y] Hin' Htile. unfold in_tile in Htile; simpl in Htile.
      apply (in_iter_tiles image tile_size _ x y Hts H) in Hin'
        as [[_ Hxm'] [_ Hym']].
      destruct Htile as [Hx Hy].
      f_equal; apply tile_unique; assumption.
Qed.


Lemma iter_tiles_negative image tile_size :
  tile_size < 0 -> 0 <= height image -> iter_tiles image tile_size = ok [].
Proof.
  intros Hts Hh. unfold iter_tiles, size, xrange_step.
  destruct (Z.eqb_spec tile_size 0); [lia |].
  destruct (Z.ltb_spec 0 tile_size); [lia |].
  assert (Hn : (0 - height image - tile_size - 1) / - tile_size <= 0).
  { apply Z.lt_succ_r. apply Z.div_lt_upper_bound; lia. }
  replace (Z.to_nat ((0 - height image - tile_size - 1) / - tile_size))
    with 0%nat by lia.
  reflexivity.
Qed.

(** X18: with a zero [tile_size] the iteration over the tiles raises
    [ValueError] (the step of the range), and with a negative one it
    yields no tile at all. *)
Theorem iter_tiles_nonpositive_step (image : Image) :
  iter_tiles image 0 = raise ValueError /\
  forall tile_size,
    tile_size < 0 -> 0 <= height image -> iter_tiles image tile_size = ok [].
Proof.
  split; [reflexivity |].
  intros tile_size Hts Hh. now apply iter_tiles_negative.
Qed.

(** X19: on an image whose width is not a multiple of [tile_size],
    [iter_tiles] yields a tile that sticks out of the right edge; the
    tiles fit only after [prep_image]. *)
Theorem iter_tiles_overhangs_unprepped (image : Image) (tile_size : Z) :
  0 < tile_size -> 0 < width image -> 0 < height image ->
  width image mod tile_size <> 0 ->
  exists tiles x y,
    iter_tiles image tile_size = ok tiles /\
    In (x, y) tiles /\
    x < width image < x + tile_size.
Proof.
  intros Hts Hw Hh Hmod.
  destruct (iter_tiles_grid image tile_size Hts) as (xs & ys & _ & _ & H).
  destruct (floor_in_tile tile_size (width image) Hts) as [Hxm Hxr].
  pose proof (Z.div_mod (width image) tile_size ltac:(lia)) as Hdm.
  assert (0 <= width image / tile_size) by (apply Z.div_pos; lia).
  eexists. exists (width image / tile_size * tile_size), 0.
  split; [exact H | split].
  - apply (in_iter_tiles image tile_size _ _ _ Hts H).
    repeat split; try assumption; try lia; nia.
  - lia.
Qed.

(** ** Image Driver: cropping twice, and tile sizes below zero *)

Lemma floor_multiple_nonneg (w tile_size : Z) :
  tile_size <> 0 -> 0 <= w -> 0 <= w / tile_size * tile_size.
Proof.
  intros Hts Hw. pose proof (Z.div_mod w tile_size Hts) as Hdm.
  destruct (Z_lt_le_dec 0 tile_size) as [Hpos | Hneg].
  - assert (0 <= w / tile_size) by (apply Z.div_pos; lia). nia.
  - pose proof (Z.mod_neg_bound w tile_size ltac:(lia)). lia.
Qed.

Lemma prep_image_size_nonzero image tile_size :
  tile_size <> 0 -> 0 <= width image -> 0 <= height image ->
  exists image',
    prep_image image tile_size = ok image' /\
    width image' = width image / tile_size * tile_size /\
    height image' = height image / tile_size * tile_size.
Proof.
  intros Hts Hw Hh.
  pose proof (floor_multiple_nonneg _ _ Hts Hw).
  pose proof (floor_multiple_nonneg _ _ Hts Hh).
  rewrite prep_image_nonzero by exact Hts.
  destruct (_ && _) eqn:Hsame.
  - exists image. apply andb_true_iff in Hsame as [Ew Eh].
    apply Z.eqb_eq in Ew, Eh. auto.
  - eexists. split; [reflexivity |].
    rewrite width_crop_origin, height_crop_origin by assumption. auto.
Qed.

(** X20: cropping is idempotent: for a non-zero [tile_size], the image
    [prep_image] returns is returned unchanged when it is prepared
    again. *)
Theorem prep_image_idempotent (image : Image) (tile_size : Z) :
  tile_size <> 0 -> 0 <= width image -> 0 <= height image ->
  exists image',
    prep_image image tile_size = ok image' /\
    prep_image image' tile_size = ok image'.
Proof.
  intros Hts Hw Hh.
  destruct (prep_image_size_nonzero image tile_size Hts Hw Hh)
    as (image' & Hprep & Ew & Eh).
  exists image'. split; [exact Hprep |].
  rewrite prep_image_nonzero by exact Hts.
  rewrite Ew, Eh, !Z.div_mul, !Z.eqb_refl by exact Hts. reflexivity.
Qed.

Section NegativeTileSize.

Variable polygon : list (Z * Z) -> string -> Image -> Image.

(** What [prep_image] keeps and what it adds: inside the old image the
    pixels stay where they were, beyond it they are black. *)
Lemma prep_image_pixels image tile_size image' :
  tile_size <> 0 -> prep_image image tile_size = ok image' ->
  forall x y,
    in_bounds image' x y = true ->
    getdata image' x y
    = if in_bounds image x y then getdata image x y else (0, 0, 0).
Proof.
  intros Hts Hprep x y Hin.
  rewrite prep_image_nonzero in Hprep by exact Hts.
  destruct (_ && _) in Hprep; inversion Hprep; subst image'; clear Hprep.
  - now rewrite Hin.
  - unfold crop, getpixel. cbn [getdata].
    destruct (in_bounds image x y); reflexivity.
Qed.

(** X21: a negative even [int] passes the validation; the run returns
    without an error, reads no pixel and draws nothing.  The image it
    returns has each side rounded up to the next multiple of
    [tile_size]; the pixels of the old image are where they were, and
    the ones added are black. *)
Theorem negative_even_tile_size_no_tiles (image : Image) (tile_size : Z) :
  tile_size < 0 -> tile_size mod 2 = 0 ->
  0 <= width image -> 0 <= height image ->
  exists image',
    prep_image image tile_size = ok image' /\
    triangulize polygon image (PyInt tile_size) = (ok image', []) /\
    (width image' mod tile_size = 0 /\
     width image <= width image' < width image - tile_size) /\
    (height image' mod tile_size = 0 /\
     height image <= height image' < height image - tile_size) /\
    (forall x y,
       in_bounds image' x y = true ->
       getdata image' x y
       = if in_bounds image x y then getdata image x y else (0, 0, 0)).
Proof.
  intros Hts Heven Hw Hh.
  destruct (prep_image_size_nonzero image tile_size ltac:(lia) Hw Hh)
    as (image' & Hprep & Ew & Eh).
  assert (Hround : forall w, w <= w / tile_size * tile_size < w - tile_size).
  { intros w. pose proof (Z.div_mod w tile_size ltac:(lia)).
    pose proof (Z.mod_neg_bound w tile_size Hts). lia. }
  assert (Htiles : iter_tiles image' tile_size = ok []).
  { apply iter_tiles_negative; [exact Hts |].
    rewrite Eh. specialize (Hround (height image)). lia. }
  exists image'. split; [exact Hprep | split; [| split; [| split]]].
  - pass_assertion Heven.
    rewrite bind_lift_ok, Hprep, bind_lift_ok, bind_load, Htiles,
      bind_lift_ok.
    reflexivity.
  - rewrite Ew. split; [apply Z.mod_mul; lia | apply Hround].
  - rewrite Eh. split; [apply Z.mod_mul; lia | apply Hround].
  - apply (prep_image_pixels image tile_size image'); [lia | exact Hprep].
Qed.

End NegativeTileSize.

(** ** Tile Renderer: a tile inside the image *)

Lemma get_average_color_between lo hi l avg :
  (forall x, In x l -> color_between lo hi x) ->
  get_average_color l = ok avg -> color_between lo hi avg.
Proof.
  intros Hl Havg. destruct l as [| c l]; [discriminate |].
  destruct (get_average_color_within lo hi c l Hl) as (a & Ha & Hb).
  rewrite Ha in Havg. inversion Havg; subst. exact Hb.
Qed.

Lemma triangle_regions_in_bounds st tx ty ts :
  (forall p, In p (read_order tx ty ts) ->
             in_bounds (buffer st) (fst p) (snd p) = true) ->
  triangle_regions tx ty ts st
  = (ok (pixels (buffer st) (north_coords tx ty ts),
         pixels (buffer st) (east_coords tx ty ts),
         pixels (buffer st) (south_coords tx ty ts),
         pixels (buffer st) (west_coords tx ty ts)),
     mkState (buffer st) (trace st ++ reads (read_order tx ty ts))).
Proof.
  intros Hin. unfold triangle_regions, read_order in *.
  destruct st as [im tr]. cbn [buffer trace] in *.
  unfold bind.
  rewrite sample_in_bounds
    by (cbn [buffer]; intros p Hp; apply Hin; rewrite !in_app_iff; tauto).
  cbn [buffer trace].
  rewrite sample_in_bounds
    by (cbn [buffer]; intros p Hp; apply Hin; rewrite !in_app_iff; tauto).
  cbn [buffer trace].
  rewrite sample_in_bounds
    by (cbn [buffer]; intros p Hp; apply Hin; rewrite !in_app_iff; tauto).
  cbn [buffer trace].
  rewrite sample_in_bounds
    by (cbn [buffer]; intros p Hp; apply Hin; rewrite !in_app_iff; tauto).
  cbn [buffer trace].
  unfold ret, reads, pixels. rewrite !map_app, <- !app_assoc. reflexivity.
Qed.

Lemma triangle_colors_in_bounds st tx ty ts :
  4 <= ts -> ts mod 2 = 0 ->
  (forall p, In p (read_order tx ty ts) ->
             in_bounds (buffer st) (fst p) (snd p) = true) ->
  exists n e s w,
    get_average_color (pixels (buffer st) (north_coords tx ty ts)) = ok n /\
    get_average_color (pixels (buffer st) (east_coords tx ty ts)) = ok e /\
    get_average_color (pixels (buffer st) (south_coords tx ty ts)) = ok s /\
    get_average_color (pixels (buffer st) (west_coords tx ty ts)) = ok w /\
    triangle_colors tx ty ts st
    = (ok (n, e, s, w),
       mkState (buffer st) (trace st ++ reads (read_order tx ty ts))).
Proof.
  intros Hge Heven Hin.
  destruct (regions_nonempty_from_4 tx ty ts Hge Heven) as (HN & HE & HS & HW).
  assert (Havg : forall coords, coords <> [] ->
            exists c, get_average_color (pixels (buffer st) coords) = ok c).
  { intros [| p l] H; [congruence |]. apply get_average_color_cons. }
  destruct (Havg _ HN) as [n Hn]. destruct (Havg _ HE) as [e He].
  destruct (Havg _ HS) as [s Hs]. destruct (Havg _ HW) as [w Hw].
  exists n, e, s, w. repeat (split; [assumption |]).
  unfold triangle_colors, bind.
  rewrite triangle_regions_in_bounds by exact Hin.
  unfold lift, ok in *. cbv beta iota. rewrite Hn, He, Hs, Hw. reflexivity.
Qed.

Lemma filter_reads coords : filter is_polygon (reads coords) = [].
Proof. induction coords as [| p l IH]; simpl; auto. Qed.

Lemma in_read_order tx ty ts p :
  In p (read_order tx ty ts) <-> In p (all_coords tx ty ts).
Proof. unfold read_order, all_coords. rewrite !in_app_iff. tauto. Qed.

Lemma length_read_order tx ty ts :
  2 <= ts -> ts mod 2 = 0 ->
  Z.of_nat (length (read_order tx ty ts)) = ts * ts.
Proof.
  intros Hge Heven. assert (Hpos : 0 <= ts) by lia.
  pose proof (twice_length_north tx ty ts Hpos Heven).
  pose proof (twice_length_south tx ty ts Hpos Heven).
  pose proof (twice_length_east tx ty ts Hpos Heven).
  pose proof (twice_length_west tx ty ts Hpos Heven).
  pose proof (even_halves _ Heven).
  unfold read_order. rewrite !length_app, !Nat2Z.inj_add. nia.
Qed.

Lemma tile_in_bounds im tx ty ts :
  2 <= ts -> ts mod 2 = 0 ->
  0 <= tx -> 0 <= ty -> tx + ts <= width im -> ty + ts <= height im ->
  forall p, In p (read_order tx ty ts) -> in_bounds im (fst p) (snd p) = true.
Proof.
  intros Hge Heven Hx Hy Hw Hh p Hp. apply in_read_order in Hp.
  apply (regions_within_tile tx ty ts Hge Heven) in Hp.
  unfold in_tile in Hp. apply in_bounds_iff. lia.
Qed.

(** X22: on a tile of even side at least 4 that lies inside the image,
    [triangle_colors] returns the averages of the pixels of the North,
    East, South and West regions, in that order; it reads each region
    once, in the order North, South, East, West, and leaves the image
    as it is. *)
Theorem triangle_colors_averages_regions st tx ty ts :
  4 <= ts -> ts mod 2 = 0 ->
  0 <= tx -> 0 <= ty ->
  tx + ts <= width (buffer st) -> ty + ts <= height (buffer st) ->
  exists n e s w,
    get_average_color (pixels (buffer st) (north_coords tx ty ts)) = ok n /\
    get_average_color (pixels (buffer st) (east_coords tx ty ts)) = ok e /\
    get_average_color (pixels (buffer st) (south_coords tx ty ts)) = ok s /\
    get_average_color (pixels (buffer st) (west_coords tx ty ts)) = ok w /\
    triangle_colors tx ty ts st
    = (ok (n, e, s, w),
       mkState (buffer st) (trace st ++ reads (read_order tx ty ts))).
Proof.
  intros Hge Heven Hx Hy Hw Hh.
  apply triangle_colors_in_bounds; [exact Hge | exact Heven |].
  apply tile_in_bounds; (assumption || lia).
Qed.

(** A pixel of an RGB image lies between black and white, and a colour
    that does so makes a fill the imaging library reads. *)
Lemma is_rgb_between c :
  is_rgb c = true -> color_between (0, 0, 0) (255, 255, 255) c.
Proof.
  destruct c as [[r g] b]. unfold is_rgb, color_between, red_of, green_of,
    blue_of. rewrite !andb_true_iff, !Z.leb_le. simpl. lia.
Qed.

Lemma between_fill_parses hi c :
  color_between (0, 0, 0) hi c -> fill_parses c = true.
Proof.
  destruct c as [[r g] b]. unfold fill_parses, color_between, red_of,
    green_of, blue_of. rewrite !andb_true_iff, !Z.leb_le. simpl. lia.
Qed.

Section Tiles.

Variable polygon : list (Z * Z) -> string -> Image -> Image.

Lemma draw_triangles_run tx ty ts split top bottom st :
  fill_parses top = true -> fill_parses bottom = true ->
  exists xy1 xy2,
    draw_triangles polygon tx ty ts split top bottom st
    = (ok tt,
       mkState (polygon xy2 (make_color bottom)
                  (polygon xy1 (make_color top) (buffer st)))
               (trace st ++ [Polygon xy1 (make_color top);
                             Polygon xy2 (make_color bottom)])) /\
    (forall v, In v (xy1 ++ xy2) ->
       (fst v = tx \/ fst v = tx + ts - 1) /\
       (snd v = ty \/ snd v = ty + ts)).
Proof.
  intros Ht Hb.
  destruct split; eexists; eexists; (split;
    [ unfold draw_triangles, bind, draw_triangle, log, ok;
      rewrite Ht, Hb; cbn [buffer trace];
      rewrite <- app_assoc; reflexivity
    | intros v Hv; simpl in Hv;
      repeat (destruct Hv as [<- | Hv]; [simpl; auto |]); contradiction ]).
Qed.

(** X23: [draw_triangles] reads no pixel, and it succeeds exactly when
    neither fill colour has a negative channel.  With a bad top colour
    the fill is refused, [ValueError], before anything is drawn; with a
    bad bottom colour only, after the top triangle has been drawn.
    Otherwise two triangles are drawn, top first, and for a side other
    than 0 and 1 they meet exactly in the two ends of one diagonal of
    the tile: for a Right split the lower left and the upper right
    corner, for a Left split the upper left and the lower right one. *)
Theorem draw_triangles_outcomes
        (tile_x tile_y tile_size : Z) (split : Split)
        (top_color bottom_color : color) (st : state) :
  (fill_parses top_color = false ->
   draw_triangles polygon tile_x tile_y tile_size split
     top_color bottom_color st = (raise ValueError, st)) /\
  (fill_parses top_color = true -> fill_parses bottom_color = false ->
   exists xy1,
     draw_triangles polygon tile_x tile_y tile_size split
       top_color bottom_color st
     = (raise ValueError,
        mkState (polygon xy1 (make_color top_color) (buffer st))
                (trace st ++ [Polygon xy1 (make_color top_color)]))) /\
  (fill_parses top_color = true -> fill_parses bottom_color = true ->
   exists xy1 xy2,
     draw_triangles polygon tile_x tile_y tile_size split
       top_color bottom_color st
     = (ok tt,
        mkState (polygon xy2 (make_color bottom_color)
                   (polygon xy1 (make_color top_color) (buffer st)))
                (trace st ++ [Polygon xy1 (make_color top_color);
                              Polygon xy2 (make_color bottom_color)])) /\
     (tile_size <> 0 -> tile_size <> 1 ->
      forall v,
        In v xy1 /\ In v xy2 <->
        match split with
        | Right => v = (tile_x, tile_y + tile_size) \/
                   v = (tile_x + tile_size - 1, tile_y)
        | Left => v = (tile_x, tile_y) \/
                  v = (tile_x + tile_size - 1, tile_y + tile_size)
        end)).
Proof.
  split; [| split].
  - intros Ht. destruct split;
      unfold draw_triangles, bind, draw_triangle; rewrite Ht; reflexivity.
  - intros Ht Hb. destruct split; eexists;
      unfold draw_triangles, bind, draw_triangle, log, ok;
      rewrite Ht, Hb; cbn [buffer trace]; reflexivity.
  - intros Ht Hb.
    destruct split; eexists; eexists;
      (split;
       [ unfold draw_triangles, bind, draw_triangle, log, ok;
         rewrite Ht, Hb; cbn [buffer trace];
         rewrite <- app_assoc; reflexivity |]);
      intros H0 H1 [a b]; simpl; split.
    + intros [[H | [H | [H | []]]] [H' | [H' | [H' | []]]]];
        injection H as Ha Hb'; injection H' as Ha' Hb'';
        first [ left; f_equal; lia | right; f_equal; lia | exfalso; lia ].
    + intros [H | H]; injection H as -> ->; auto 6.
    + intros [[H | [H | [H | []]]] [H' | [H' | [H' | []]]]];
        injection H as Ha Hb'; injection H' as Ha' Hb'';
        first [ left; f_equal; lia | right; f_equal; lia | exfalso; lia ].
    + intros [H | H]; injection H as -> ->; auto 6.
Qed.

Lemma process_tile_in_bounds st tx ty ts :
  4 <= ts -> ts mod 2 = 0 ->
  (forall p, In p (read_order tx ty ts) ->
             in_bounds (buffer st) (fst p) (snd p) = true) ->
  exists split top bottom,
    process_tile polygon tx ty ts st
    = draw_triangles polygon tx ty ts split top bottom
        (mkState (buffer st) (trace st ++ reads (read_order tx ty ts))) /\
    (forall lo hi,
       (forall p, In p (read_order tx ty ts) ->
                  color_between lo hi (getdata (buffer st) (fst p) (snd p))) ->
       color_between lo hi top /\ color_between lo hi bottom).
Proof.
  intros Hge Heven Hin.
  destruct (triangle_colors_in_bounds st tx ty ts Hge Heven Hin)
    as (n & e & s & w & Hn & He & Hs & Hw & Hrun).
  assert (Hregion : forall lo hi coords c,
            (forall p, In p (read_order tx ty ts) ->
               color_between lo hi (getdata (buffer st) (fst p) (snd p))) ->
            (forall p, In p coords -> In p (read_order tx ty ts)) ->
            get_average_color (pixels (buffer st) coords) = ok c ->
            color_between lo hi c).
  { intros lo hi coords c Hpix Hsub Hc.
    apply (get_average_color_between lo hi _ _) with (2 := Hc).
    intros x Hx. apply in_map_iff in Hx as (p & <- & Hp). auto. }
  assert (Hpair : forall a b, exists c,
            get_average_color [a; b] = ok c /\
            forall lo hi, color_between lo hi a -> color_between lo hi b ->
                          color_between lo hi c).
  { intros a b. destruct (get_average_color_cons a [b]) as [c Hc].
    exists c. split; [exact Hc |]. intros lo hi Ha Hb.
    apply (get_average_color_between lo hi [a; b] c); [| exact Hc].
    intros x [<- | [<- | []]]; assumption. }
  assert (Hbounds : forall lo hi,
            (forall p, In p (read_order tx ty ts) ->
               color_between lo hi (getdata (buffer st) (fst p) (snd p))) ->
            color_between lo hi n /\ color_between lo hi e /\
            color_between lo hi s /\ color_between lo hi w).
  { intros lo hi Hpix.
    split; [| split; [| split]];
      [ eapply Hregion; [exact Hpix | | exact Hn]
      | eapply Hregion; [exact Hpix | | exact He]
      | eapply Hregion; [exact Hpix | | exact Hs]
      | eapply Hregion; [exact Hpix | | exact Hw] ];
      intros p Hp; unfold read_order; rewrite !in_app_iff; tauto. }
  destruct (choose_split_total n e s w) as [Hsp | Hsp].
  - destruct (Hpair n e) as (top & Htop & Btop).
    destruct (Hpair s w) as (bottom & Hbot & Bbot).
    exists Right, top, bottom. split.
    + unfold process_tile, bind, lift. unfold ok in *.
      rewrite Hrun. cbv beta iota. rewrite Hsp. cbv beta iota.
      rewrite Htop, Hbot. reflexivity.
    + intros lo hi Hpix. destruct (Hbounds lo hi Hpix) as (? & ? & ? & ?).
      split; [apply Btop | apply Bbot]; assumption.
  - destruct (Hpair n w) as (top & Htop & Btop).
    destruct (Hpair s e) as (bottom & Hbot & Bbot).
    exists Left, top, bottom. split.
    + unfold process_tile, bind, lift. unfold ok in *.
      rewrite Hrun. cbv beta iota. rewrite Hsp. cbv beta iota.
      rewrite Htop, Hbot. reflexivity.
    + intros lo hi Hpix. destruct (Hbounds lo hi Hpix) as (? & ? & ? & ?).
      split; [apply Btop | apply Bbot]; assumption.
Qed.

End Tiles.

Section TileRuns.

Variable polygon : list (Z * Z) -> string -> Image -> Image.

Lemma process_tile_run st tx ty ts :
  4 <= ts -> ts mod 2 = 0 ->
  0 <= tx -> 0 <= ty ->
  tx + ts <= width (buffer st) -> ty + ts <= height (buffer st) ->
  exists xy1 xy2 top bottom,
    process_tile polygon tx ty ts st
    = (ok tt,
       mkState (polygon xy2 (make_color bottom)
                  (polygon xy1 (make_color top) (buffer st)))
               (trace st ++ reads (read_order tx ty ts)
                ++ [Polygon xy1 (make_color top);
                    Polygon xy2 (make_color bottom)])) /\
    (forall v, In v (xy1 ++ xy2) ->
       (fst v = tx \/ fst v = tx + ts - 1) /\
       (snd v = ty \/ snd v = ty + ts)) /\
    (forall lo hi,
       (forall p, In p (read_order tx ty ts) ->
                  color_between lo hi (getdata (buffer st) (fst p) (snd p))) ->
       color_between lo hi top /\ color_between lo hi bottom).
Proof.
  intros Hge Heven Hx Hy Hw Hh.
  assert (Hin := tile_in_bounds (buffer st) tx ty ts ltac:(lia) Heven
                   Hx Hy Hw Hh).
  destruct (process_tile_in_bounds polygon st tx ty ts Hge Heven Hin)
    as (split & top & bottom & Hrun & Hcol).
  destruct (Hcol (0, 0, 0) (255, 255, 255)) as [Htop Hbot].
  { intros p _. apply is_rgb_between, rgb_bytes. }
  destruct (draw_triangles_run polygon tx ty ts split top bottom
              (mkState (buffer st) (trace st ++ reads (read_order tx ty ts)))
              (between_fill_parses _ _ Htop) (between_fill_parses _ _ Hbot))
    as (xy1 & xy2 & Hdraw & Hv).
  exists xy1, xy2, top, bottom. split; [| split; assumption].
  rewrite Hrun, Hdraw. cbn [buffer trace]. now rewrite <- app_assoc.
Qed.


(** X25: when every component of every pixel sampled in the tile lies
    between the same bounds, so do the two fill colours of the tile. *)
Theorem process_tile_fills_within_pixel_range st tx ty ts lo hi :
  4 <= ts -> ts mod 2 = 0 ->
  0 <= tx -> 0 <= ty ->
  tx + ts <= width (buffer st) -> ty + ts <= height (buffer st) ->
  (forall p, In p (read_order tx ty ts) ->
             color_between lo hi (getdata (buffer st) (fst p) (snd p))) ->
  exists xy1 xy2 top bottom st',
    process_tile polygon tx ty ts st = (ok tt, st') /\
    filter is_polygon (trace st')
    = filter is_polygon (trace st)
      ++ [Polygon xy1 (make_color top); Polygon xy2 (make_color bottom)] /\
    color_between lo hi top /\ color_between lo hi bottom.
Proof.
  intros Hge Heven Hx Hy Hw Hh Hpix.
  destruct (process_tile_run st tx ty ts Hge Heven Hx Hy Hw Hh)
    as (xy1 & xy2 & top & bottom & Hrun & _ & Hcol).
  destruct (Hcol lo hi Hpix) as [Htop Hbot].
  exists xy1, xy2, top, bottom. eexists. split; [exact Hrun |].
  cbn [trace]. rewrite !filter_app, filter_reads. auto.
Qed.

Lemma forM__steps {A} (Inv : state -> Prop) (f : A -> M unit) (k k2 : nat)
      (l : list A) :
  (forall a st, In a l -> Inv st ->
     exists st' evs,
       f a st = (ok tt, st') /\ Inv st' /\
       trace st' = trace st ++ evs /\
       length evs = k /\ length (filter is_polygon evs) = k2) ->
  forall st, Inv st ->
    exists st' evs,
      forM_ l f st = (ok tt, st') /\ Inv st' /\
      trace st' = trace st ++ evs /\
      length evs = (length l * k)%nat /\
      length (filter is_polygon evs) = (length l * k2)%nat.
Proof.
  induction l as [| a l IH]; intros Hf st HI.
  - exists st, []. simpl. rewrite app_nil_r. auto.
  - destruct (Hf a st (or_introl eq_refl) HI)
      as (st1 & ev1 & Hrun & HI1 & Htr1 & Hlen1 & Hpol1).
    destruct (IH (fun a' st' Ha' => Hf a' st' (or_intror Ha')) st1 HI1)
      as (st2 & ev2 & Hrun2 & HI2 & Htr2 & Hlen2 & Hpol2).
    exists st2, (ev1 ++ ev2). simpl forM_. unfold bind.
    unfold ok in *. rewrite Hrun, Hrun2.
    split; [reflexivity | split; [exact HI2 | split; [| split]]].
    + rewrite Htr2, Htr1, app_assoc. reflexivity.
    + rewrite length_app. simpl. lia.
    + rewrite filter_app, length_app. simpl. lia.
Qed.

(** X26: with an even [int] [tile_size] of at least 4 and a drawing back
    end that keeps the size of the image, [triangulize] returns an
    image whose sides are the original ones rounded down to multiples
    of [tile_size]; every tile costs [tile_size²] pixel reads and two
    polygons. *)
Theorem triangulize_succeeds (image : Image) (tile_size : Z) :
  keeps_size polygon ->
  0 <= width image -> 0 <= height image ->
  4 <= tile_size -> tile_size mod 2 = 0 ->
  exists image' events,
    triangulize polygon image (PyInt tile_size) = (ok image', events) /\
    width image' = width image / tile_size * tile_size /\
    height image' = height image / tile_size * tile_size /\
    Z.of_nat (length events)
    = width image / tile_size * (height image / tile_size)
      * (tile_size * tile_size + 2) /\
    Z.of_nat (length (filter is_polygon events))
    = 2 * (width image / tile_size * (height image / tile_size)).
Proof.
  intros Hkeep Hw Hh Hge Heven.
  assert (Hts : 0 < tile_size) by lia.
  destruct (prep_image_size image tile_size Hw Hh Hts)
    as (im0 & Hprep & Ew & Eh).
  assert (Hwm : width im0 mod tile_size = 0)
    by (rewrite Ew; apply Z.mod_mul; lia).
  assert (Hhm : height im0 mod tile_size = 0)
    by (rewrite Eh; apply Z.mod_mul; lia).
  assert (Hw0 : 0 <= width im0)
    by (rewrite Ew; apply floor_multiple_nonneg; lia).
  assert (Hh0 : 0 <= height im0)
    by (rewrite Eh; apply floor_multiple_nonneg; lia).
  destruct (iter_tiles_grid im0 tile_size Hts) as (xs & ys & _ & _ & Htiles).
  set (tiles := flat_map (fun y => map (fun x => (x, y)) xs) ys) in *.
  pose proof (length_iter_tiles im0 tile_size tiles Hts Hw0 Hh0 Htiles) as Hlen.
  rewrite !ceil_exact in Hlen by assumption.
  rewrite Ew, Eh, !Z.div_mul in Hlen by lia.
  set (Inv := fun st : state =>
                width (buffer st) = width im0 /\
                height (buffer st) = height im0).
  destruct (forM__steps Inv
              (fun '(x, y) => process_tile polygon x y tile_size)
              (length (read_order 0 0 tile_size) + 2) 2 tiles)
    with (st := mkState im0 []) as (st' & evs & Hrun & HI & Htr & Hn & Hp).
  { intros [x y] st Hin [Iw Ih].
    apply (in_iter_tiles im0 tile_size tiles x y Hts Htiles) in Hin
      as [[Hx Hxm] [Hy Hym]].
    pose proof (tile_inside _ _ _ Hts Hwm Hx Hxm).
    pose proof (tile_inside _ _ _ Hts Hhm Hy Hym).
    destruct (process_tile_run st x y tile_size Hge Heven)
      as (xy1 & xy2 & top & bottom & Hrun & _); try lia.
    eexists. eexists. split; [exact Hrun |].
    cbn [buffer trace]. split; [| split; [reflexivity | split]].
    - unfold Inv. cbn [buffer].
      destruct (Hkeep xy2 (make_color bottom)
                  (polygon xy1 (make_color top) (buffer st))) as [-> ->].
      destruct (Hkeep xy1 (make_color top) (buffer st)) as [-> ->].
      auto.
    - rewrite length_app. simpl. unfold reads. rewrite length_map.
      apply Nat2Z.inj. rewrite !Nat2Z.inj_add.
      rewrite !length_read_order by (assumption || lia). reflexivity.
    - rewrite filter_app, filter_reads. reflexivity. }
  { split; reflexivity. }
  exists (buffer st'), evs.
  destruct HI as [Iw Ih]. cbn [trace] in Htr. simpl in Htr.
  split; [| split; [| split; [| split]]].
  - pass_assertion Heven.
    rewrite bind_lift_ok, Hprep, bind_lift_ok, bind_load, Htiles,
      bind_lift_ok.
    cbn [trace]. unfold bind at 1. unfold ok in *. rewrite Hrun.
    unfold current. rewrite Htr. reflexivity.
  - now rewrite Iw.
  - now rewrite Ih.
  - rewrite Hn, Nat2Z.inj_mul, Nat2Z.inj_add, Hlen.
    rewrite length_read_order by (assumption || lia). reflexivity.
  - rewrite Hp, Nat2Z.inj_mul, Hlen. simpl Z.of_nat. lia.
Qed.

Lemma forM__tiles (tile_size W H : Z) (tiles : list (Z * Z)) :
  4 <= tile_size -> tile_size mod 2 = 0 -> keeps_size polygon ->
  (forall x y, In (x, y) tiles ->
     0 <= x /\ x + tile_size <= W /\ 0 <= y /\ y + tile_size <= H) ->
  forall st,
    width (buffer st) = W -> height (buffer st) = H ->
    exists st' draws,
      forM_ tiles (fun '(x, y) => process_tile polygon x y tile_size) st
      = (ok tt, st') /\
      width (buffer st') = W /\ height (buffer st') = H /\
      length draws = length tiles /\
      (forall d, In d draws ->
         is_polygon (fst d) = true /\ is_polygon (snd d) = true) /\
      trace st'
      = trace st ++ flat_map (tile_events tile_size) (combine tiles draws).
Proof.
  intros Hge Heven Hkeep. induction tiles as [| [x y] tiles IH];
    intros Hin st Iw Ih.
  - exists st, []. simpl. rewrite app_nil_r.
    repeat split; auto; intros d [].
  - destruct (Hin x y (or_introl eq_refl)) as (Hx & Hxw & Hy & Hyh).
    destruct (process_tile_run st x y tile_size Hge Heven)
      as (xy1 & xy2 & top & bottom & Hrun & _); try lia.
    set (st1 := mkState (polygon xy2 (make_color bottom)
                           (polygon xy1 (make_color top) (buffer st)))
                  (trace st ++ reads (read_order x y tile_size)
                   ++ [Polygon xy1 (make_color top);
                       Polygon xy2 (make_color bottom)])) in *.
    assert (Iw1 : width (buffer st1) = W).
    { cbn [st1 buffer]. unfold st1; cbn [buffer].
      destruct (Hkeep xy2 (make_color bottom)
                  (polygon xy1 (make_color top) (buffer st))) as [-> _].
      destruct (Hkeep xy1 (make_color top) (buffer st)) as [-> _].
      exact Iw. }
    assert (Ih1 : height (buffer st1) = H).
    { unfold st1; cbn [buffer].
      destruct (Hkeep xy2 (make_color bottom)
                  (polygon xy1 (make_color top) (buffer st))) as [_ ->].
      destruct (Hkeep xy1 (make_color top) (buffer st)) as [_ ->].
      exact Ih. }
    destruct (IH (fun x' y' Hin' => Hin x' y' (or_intror Hin')) st1 Iw1 Ih1)
      as (st2 & draws & Hrun2 & Iw2 & Ih2 & Hlen & Hpoly & Htr).
    exists st2,
      ((Polygon xy1 (make_color top), Polygon xy2 (make_color bottom))
         :: draws).
    simpl forM_. unfold bind. unfold ok in *. rewrite Hrun, Hrun2.
    split; [reflexivity |].
    split; [exact Iw2 |]. split; [exact Ih2 |].
    split; [simpl; now rewrite Hlen |].
    split.
    + intros d [<- | Hd]; [split; reflexivity | now apply Hpoly].
    + rewrite Htr. unfold st1; cbn [trace]. simpl combine. simpl flat_map.
      unfold tile_events at 2. cbn [fst snd].
      now rewrite <- !app_assoc.
Qed.

(** X27: with an even [int] [tile_size] of at least 4 and a drawing back
    end that keeps the size of the image, the trace of [triangulize] is
    made, tile after tile in the order of [iter_tiles] on the cropped
    image, of the reads of the tile followed by its two polygons: no
    tile is read before the tiles before it have been drawn. *)
Theorem triangulize_trace_tile_by_tile (image : Image) (tile_size : Z) :
  keeps_size polygon ->
  0 <= width image -> 0 <= height image ->
  4 <= tile_size -> tile_size mod 2 = 0 ->
  exists image0 tiles draws image',
    prep_image image tile_size = ok image0 /\
    iter_tiles image0 tile_size = ok tiles /\
    length draws = length tiles /\
    (forall d, In d draws ->
       is_polygon (fst d) = true /\ is_polygon (snd d) = true) /\
    triangulize polygon image (PyInt tile_size)
    = (ok image', flat_map (tile_events tile_size) (combine tiles draws)).
Proof.
  intros Hkeep Hw Hh Hge Heven.
  assert (Hts : 0 < tile_size) by lia.
  destruct (prep_image_size image tile_size Hw Hh Hts)
    as (im0 & Hprep & Ew & Eh).
  assert (Hwm : width im0 mod tile_size = 0)
    by (rewrite Ew; apply Z.mod_mul; lia).
  assert (Hhm : height im0 mod tile_size = 0)
    by (rewrite Eh; apply Z.mod_mul; lia).
  destruct (iter_tiles_grid im0 tile_size Hts) as (xs & ys & _ & _ & Htiles).
  set (tiles := flat_map (fun y => map (fun x => (x, y)) xs) ys) in *.
  destruct (forM__tiles tile_size (width im0) (height im0) tiles
              Hge Heven Hkeep) with (st := mkState im0 [])
    as (st' & draws & Hrun & _ & _ & Hlen & Hpoly & Htr);
    [| reflexivity | reflexivity |].
  { intros x y Hin.
    apply (in_iter_tiles im0 tile_size tiles x y Hts Htiles) in Hin
      as [[Hx Hxm] [Hy Hym]].
    pose proof (tile_inside _ _ _ Hts Hwm Hx Hxm).
    pose proof (tile_inside _ _ _ Hts Hhm Hy Hym). lia. }
  exists im0, tiles, draws, (buffer st').
  split; [exact Hprep |]. split; [exact Htiles |].
  split; [exact Hlen |]. split; [exact Hpoly |].
  pass_assertion Heven.
  rewrite bind_lift_ok, Hprep, bind_lift_ok, bind_load, Htiles,
    bind_lift_ok.
  cbn [trace]. unfold bind at 1. unfold ok in *. rewrite Hrun.
  unfold current. rewrite Htr. reflexivity.
Qed.

End TileRuns.

(** ** Command line *)

Section CommandLineProperties.

Variable py_int : string -> result py_integer.
Variable polygon : list (Z * Z) -> string -> Image -> Image.

Lemma triangulize_asserts_iff image n :
  fst (triangulize polygon image n) = raise AssertionError <->
  isinstance_int n = false \/ value n mod 2 <> 0.
Proof.
  split.
  - intros Hfail. destruct n as [z | z]; [| now left].
    destruct (Z.eq_dec (z mod 2) 0) as [Heven | Hodd]; [| now right].
    exfalso.
    pose proof (never_asserts_even polygon image z Heven (mkState image []))
      as Hpass.
    unfold triangulize in Hfail.
    destruct (triangulize_body polygon image (PyInt z) (mkState image []))
      as [r st].
    exact (Hpass Hfail).
  - intros [Hlong | Hodd];
      [rewrite triangulize_long by exact Hlong
      | rewrite triangulize_odd by exact Hodd]; reflexivity.
Qed.

(** X28: the command line checks less than the library.  For an
    argument that [int] reads as [n], [even_int] returns [n] exactly
    when [n] is even and raises its "must be an even number" error
    exactly when it is odd, while the assertion of [triangulize] fails
    exactly when [n] is odd or is a [long].  So the two agree on every
    [int], and an even [long], which [int] makes of a number too large
    for a machine word, passes [even_int] and fails the assertion. *)
Theorem even_int_checks_less_than_assertion
        (x : string) (n : py_integer) (image : Image) :
  py_int x = ok n ->
  (even_int py_int x = inr n <-> value n mod 2 = 0) /\
  (even_int py_int x = inl (ArgumentTypeError "must be an even number") <->
   value n mod 2 <> 0) /\
  (fst (triangulize polygon image n) = raise AssertionError <->
   isinstance_int n = false \/ value n mod 2 <> 0) /\
  (isinstance_int n = true ->
   (even_int py_int x = inr n <->
    fst (triangulize polygon image n) <> raise AssertionError)) /\
  (isinstance_int n = false -> value n mod 2 = 0 ->
   even_int py_int x = inr n /\
   triangulize polygon image n = (raise AssertionError, [])).
Proof.
  intros Hint.
  assert (Haccept : even_int py_int x = inr n <-> value n mod 2 = 0).
  { unfold even_int. rewrite Hint. unfold ok.
    destruct (Z.eqb_spec (value n mod 2) 0) as [Heven | Hodd];
      simpl negb; cbv iota; split; intros H;
      try reflexivity; try assumption; try discriminate; contradiction. }
  assert (Hrefuse :
            even_int py_int x
            = inl (ArgumentTypeError "must be an even number") <->
            value n mod 2 <> 0).
  { unfold even_int. rewrite Hint. unfold ok.
    destruct (Z.eqb_spec (value n mod 2) 0) as [Heven | Hodd];
      simpl negb; cbv iota; split; intros H;
      try reflexivity; try assumption; try discriminate; contradiction. }
  pose proof (triangulize_asserts_iff image n) as Hassert.
  split; [exact Haccept | split; [exact Hrefuse | split; [exact Hassert |]]].
  split.
  - intros Hisint. rewrite Haccept, Hassert, Hisint. split.
    + intros Heven [Hf | Hodd]; [discriminate | contradiction].
    + intros H. destruct (Z.eq_dec (value n mod 2) 0) as [Heven | Hodd];
        [exact Heven | exfalso; apply H; now right].
  - intros Hlong Heven. split; [now apply Haccept |].
    now apply triangulize_long.
Qed.

End CommandLineProperties.

(** ** Color Math: fill strings *)

Lemma append_sep_inj sep s s' t t' :
  free_of sep s -> free_of sep s' ->
  (s ++ String sep t = s' ++ String sep t')%string -> s = s' /\ t = t'.
Proof.
  revert s'. induction s as [| a s IH]; intros [| a' s'] Hs Hs' H;
    simpl in *.
  - inversion H. auto.
  - inversion H; subst. destruct Hs' as [Hn _]. contradiction.
  - inversion H; subst. destruct Hs as [Hn _]. contradiction.
  - inversion H; subst. destruct Hs as [_ Hs], Hs' as [_ Hs'].
    destruct (IH s' Hs Hs' H2) as [-> ->]. auto.
Qed.

Lemma free_of_string_of_uint sep d :
  sep = ","%char \/ sep = ")"%char ->
  free_of sep (NilEmpty.string_of_uint d).
Proof.
  intros Hsep. induction d; simpl; auto;
    (split; [destruct Hsep; subst; discriminate | assumption]).
Qed.

Lemma free_of_fmt_d sep z :
  sep = ","%char \/ sep = ")"%char -> free_of sep (fmt_d z).
Proof.
  intros Hsep. unfold fmt_d, NilZero.string_of_int.
  assert (Hu : forall d, free_of sep (NilZero.string_of_uint d)).
  { intros d. destruct d; try apply (free_of_string_of_uint sep _ Hsep).
    simpl. split; [destruct Hsep; subst; discriminate | exact I]. }
  destruct (Z.to_int z) as [d | d]; [apply Hu |].
  simpl. split; [destruct Hsep; subst; discriminate | apply Hu].
Qed.

Lemma fmt_d_inj z z' : fmt_d z = fmt_d z' -> z = z'.
Proof.
  unfold fmt_d. intros H. apply DecimalZ.to_int_inj.
  assert (Hnn : forall z, Z.to_int z <> Decimal.Pos Decimal.Nil /\
                          Z.to_int z <> Decimal.Neg Decimal.Nil).
  { intros [| p | p]; simpl; split; try discriminate;
      intros Heq; inversion Heq as [Hp];
      now apply DecimalPos.Unsigned.to_uint_nonnil in Hp. }
  apply (f_equal NilZero.int_of_string) in H.
  destruct (Hnn z) as [H1 H2], (Hnn z') as [H1' H2'].
  rewrite !NilZero.isi in H by assumption. now inversion H.
Qed.

(** X29: two colours get the same fill string only when they are the
    same colour. *)
Theorem make_color_injective (c c' : color) :
  make_color c = make_color c' <-> c = c'.
Proof.
  split; [| intros ->; reflexivity].
  destruct c as [[r g] b], c' as [[r' g'] b']. unfold make_color.
  intros H. simpl in H. inversion H as [H1]. clear H.
  apply append_sep_inj in H1 as [Hr H1];
    try (apply free_of_fmt_d; auto).
  inversion H1 as [H2]. clear H1.
  apply append_sep_inj in H2 as [Hg H2];
    try (apply free_of_fmt_d; auto).
  inversion H2 as [H3]. clear H2.
  apply append_sep_inj in H3 as [Hb _];
    try (apply free_of_fmt_d; auto).
  apply fmt_d_inj in Hr, Hg, Hb. now subst.
Qed.

(** * Instances *)

Lemma odd_tile_size_rejected_at_3 :
  Z.odd (value (PyInt 3)) = true /\
  triangulize no_draw (solid 4 4 red) (PyInt 3) = (raise AssertionError, []).
Proof.
  split; [reflexivity |].
  apply (odd_tile_size_rejected no_draw (solid 4 4 red) (PyInt 3)).
  reflexivity.
Defined.

Lemma asserts_exactly_long_or_odd_tile_size_at_long_4 :
  (isinstance_int (PyLong 4) = false \/ value (PyLong 4) mod 2 <> 0) /\
  triangulize no_draw (solid 4 4 red) (PyLong 4) = (raise AssertionError, []).
Proof.
  assert (H : isinstance_int (PyLong 4) = false \/ value (PyLong 4) mod 2 <> 0)
    by (left; reflexivity).
  split; [exact H |].
  exact (proj1 (asserts_exactly_long_or_odd_tile_size no_draw
                  (solid 4 4 red) (PyLong 4)) H).
Defined.

Lemma region_sizes_sum_at_4 :
  2 <= 4 /\ 4 mod 2 = 0 /\
  (Z.of_nat (length (north_coords 0 0 4) + length (east_coords 0 0 4)
             + length (south_coords 0 0 4) + length (west_coords 0 0 4))
   = 4 * 4
   /\ forall st north east south west st',
       triangle_regions 0 0 4 st = (ok (north, east, south, west), st') ->
       Z.of_nat (length north + length east + length south + length west)
       = 4 * 4).
Proof.
  split; [lia | split; [reflexivity |]].
  apply (region_sizes_sum 0 0 4); [lia | reflexivity].
Defined.

Lemma regions_partition_off_diagonal_at_4 :
  2 <= 4 /\ 4 mod 2 = 0 /\
  ((forall p, In p (all_coords 0 0 4) -> in_tile 0 0 4 p) /\
   (forall p, in_tile 0 0 4 p -> fst p - 0 <> snd p - 0 ->
              times_sampled 0 0 4 p = 1%nat)).
Proof.
  split; [lia | split; [reflexivity |]].
  apply (regions_partition_off_diagonal 0 0 4); [lia | reflexivity].
Defined.

Lemma prep_image_largest_multiple_at_45 :
  0 <= width (solid 45 70 red) /\ 0 <= height (solid 45 70 red) /\
  0 < 20 /\ 20 mod 2 = 0 /\
  exists image',
    prep_image (solid 45 70 red) 20 = ok image' /\
    (width image' mod 20 = 0 /\ height image' mod 20 = 0) /\
    (0 <= width image' <= width (solid 45 70 red) /\
     0 <= height image' <= height (solid 45 70 red)) /\
    (forall m, m mod 20 = 0 -> m <= width (solid 45 70 red) ->
               m <= width image') /\
    (forall m, m mod 20 = 0 -> m <= height (solid 45 70 red) ->
               m <= height image') /\
    (forall x y, in_bounds image' x y = true ->
                 getpixel image' x y = getpixel (solid 45 70 red) x y) /\
    (width (solid 45 70 red) mod 20 = 0 ->
     height (solid 45 70 red) mod 20 = 0 ->
     image' = solid 45 70 red) /\
    (forall im, width im = 45 -> 0 <= height im ->
                exists im', prep_image im 20 = ok im' /\ width im' = 40).
Proof.
  split; [simpl; lia | split; [simpl; lia | split; [lia | split]]].
  - reflexivity.
  - apply (prep_image_largest_multiple (solid 45 70 red) 20);
      [simpl; lia | simpl; lia | lia | reflexivity].
Defined.

Lemma smaller_than_a_tile_no_tiles_at_3x10 :
  0 <= width (solid 3 10 red) /\ 0 <= height (solid 3 10 red) /\
  0 < 4 /\ 4 mod 2 = 0 /\
  (width (solid 3 10 red) < 4 \/ height (solid 3 10 red) < 4) /\
  exists image',
    prep_image (solid 3 10 red) 4 = ok image' /\
    (width (solid 3 10 red) < 4 -> width image' = 0) /\
    (height (solid 3 10 red) < 4 -> height image' = 0) /\
    iter_tiles image' 4 = ok [] /\
    triangulize no_draw (solid 3 10 red) (PyInt 4) = (ok image', []).
Proof.
  split; [simpl; lia | split; [simpl; lia | split; [lia | split]]].
  - reflexivity.
  - split; [left; simpl; lia |].
    apply (smaller_than_a_tile_no_tiles no_draw (solid 3 10 red) 4);
      [simpl; lia | simpl; lia | lia | reflexivity | left; simpl; lia].
Defined.

(** A tile of side 4 in a plain image: the regions are read, Right is
    chosen on the tie and both triangles are drawn in the same colour. *)
Example triangulize_4x4 :
  snd (triangulize no_draw (solid 4 4 red) (PyInt 4))
  = [PixelRead 0 0; PixelRead 1 0; PixelRead 2 0; PixelRead 3 0;
     PixelRead 1 1; PixelRead 2 1; PixelRead 1 3; PixelRead 2 3;
     PixelRead 0 0; PixelRead 0 1; PixelRead 0 2; PixelRead 0 3;
     PixelRead 1 1; PixelRead 1 2; PixelRead 3 1; PixelRead 3 2;
     Polygon [(0, 4); (0, 0); (3, 0)] "rgb(255, 0, 0)";
     Polygon [(0, 4); (3, 4); (3, 0)] "rgb(255, 0, 0)"].
Proof. reflexivity. Qed.

Lemma get_average_color_permutation_at_swap :
  Permutation [(1, 2, 3); (40, 50, 60)] [(40, 50, 60); (1, 2, 3)] /\
  get_average_color [(1, 2, 3); (40, 50, 60)]
  = get_average_color [(40, 50, 60); (1, 2, 3)].
Proof.
  assert (H : Permutation [(1, 2, 3); (40, 50, 60)]
                          [(40, 50, 60); (1, 2, 3)]) by apply perm_swap.
  split; [exact H | exact (get_average_color_permutation _ _ H)].
Defined.

Lemma get_average_color_stays_in_range_at_two :
  (forall x, In x [(10, 20, 30); (200, 40, 255)] ->
             color_between (0, 0, 0) (255, 255, 255) x) /\
  exists avg,
    get_average_color [(10, 20, 30); (200, 40, 255)] = ok avg /\
    color_between (0, 0, 0) (255, 255, 255) avg.
Proof.
  assert (H : forall x, In x [(10, 20, 30); (200, 40, 255)] ->
                        color_between (0, 0, 0) (255, 255, 255) x).
  { intros x [<- | [<- | []]];
      unfold color_between, red_of, green_of, blue_of; simpl; lia. }
  split; [exact H | exact (get_average_color_stays_in_range _ _ _ _ H)].
Defined.

Lemma region_sizes_each_at_6 :
  0 <= 6 /\ 6 mod 2 = 0 /\
  (Z.of_nat (length (north_coords 0 0 6)) = 6 / 2 * (6 / 2 + 1) /\
   Z.of_nat (length (east_coords 0 0 6)) = 6 / 2 * (6 / 2 + 1) /\
   Z.of_nat (length (south_coords 0 0 6)) = 6 / 2 * (6 / 2 - 1) /\
   Z.of_nat (length (west_coords 0 0 6)) = 6 / 2 * (6 / 2 - 1)).
Proof.
  split; [lia | split; [reflexivity |]].
  apply (region_sizes_each 0 0 6); [lia | reflexivity].
Defined.

Lemma equal_neighbours_split_right_at_grey :
  ((7, 7, 7) = (7, 7, 7) \/ (1, 2, 3) = (9, 9, 9)) /\
  choose_split (7, 7, 7) (7, 7, 7) (1, 2, 3) (9, 9, 9) = ok Right.
Proof.
  assert (H : (7, 7, 7) = (7, 7, 7) \/ (1, 2, 3) = (9, 9, 9))
    by (left; reflexivity).
  split; [exact H | exact (equal_neighbours_split_right _ _ _ _ H)].
Defined.

Lemma iter_tiles_corners_at_45x70 :
  0 < 20 /\
  exists tiles,
    iter_tiles (solid 45 70 red) 20 = ok tiles /\
    NoDup tiles /\
    forall x y,
      In (x, y) tiles <->
      (0 <= x < width (solid 45 70 red) /\ x mod 20 = 0) /\
      (0 <= y < height (solid 45 70 red) /\ y mod 20 = 0).
Proof.
  split; [lia |]. apply (iter_tiles_corners (solid 45 70 red) 20). lia.
Defined.

Lemma iter_tiles_count_at_45x60 :
  0 < 20 /\ 0 <= width (solid 45 60 red) /\ 0 <= height (solid 45 60 red) /\
  exists tiles,
    iter_tiles (solid 45 60 red) 20 = ok tiles /\
    Z.of_nat (length tiles)
    = (width (solid 45 60 red) + 20 - 1) / 20
      * ((height (solid 45 60 red) + 20 - 1) / 20) /\
    (width (solid 45 60 red) mod 20 = 0 ->
     height (solid 45 60 red) mod 20 = 0 ->
     Z.of_nat (length tiles)
     = width (solid 45 60 red) / 20 * (height (solid 45 60 red) / 20)).
Proof.
  split; [lia | split; [simpl; lia | split; [simpl; lia |]]].
  apply (iter_tiles_count (solid 45 60 red) 20); [lia | simpl; lia | simpl; lia].
Defined.

Lemma iter_tiles_row_major_at_45x70 :
  0 < 20 /\
  exists tiles,
    iter_tiles (solid 45 70 red) 20 = ok tiles /\
    StronglySorted tile_before tiles.
Proof.
  split; [lia |]. apply (iter_tiles_row_major (solid 45 70 red) 20). lia.
Defined.

Lemma tiles_partition_prepped_image_at_40x60 :
  0 < 20 /\
  width (solid 40 60 red) mod 20 = 0 /\
  height (solid 40 60 red) mod 20 = 0 /\
  exists tiles,
    iter_tiles (solid 40 60 red) 20 = ok tiles /\
    (forall x y, In (x, y) tiles ->
       0 <= x /\ x + 20 <= width (solid 40 60 red) /\
       0 <= y /\ y + 20 <= height (solid 40 60 red)) /\
    (forall px py, in_bounds (solid 40 60 red) px py = true ->
       exists t,
         In t tiles /\ in_tile (fst t) (snd t) 20 (px, py) /\
         forall t', In t' tiles ->
                    in_tile (fst t') (snd t') 20 (px, py) -> t' = t).
Proof.
  split; [lia | split; [reflexivity | split; [reflexivity |]]].
  apply (tiles_partition_prepped_image (solid 40 60 red) 20);
    [lia | reflexivity | reflexivity].
Defined.

Lemma iter_tiles_overhangs_unprepped_at_45x70 :
  0 < 20 /\ 0 < width (solid 45 70 red) /\ 0 < height (solid 45 70 red) /\
  width (solid 45 70 red) mod 20 <> 0 /\
  exists tiles x y,
    iter_tiles (solid 45 70 red) 20 = ok tiles /\
    In (x, y) tiles /\
    x < width (solid 45 70 red) < x + 20.
Proof.
  assert (H : width (solid 45 70 red) mod 20 <> 0)
    by (vm_compute; discriminate).
  split; [lia | split; [simpl; lia | split; [simpl; lia | split]]].
  - exact H.
  - apply (iter_tiles_overhangs_unprepped (solid 45 70 red) 20);
      [lia | simpl; lia | simpl; lia | exact H].
Defined.

Lemma prep_image_idempotent_at_45x70 :
  20 <> 0 /\ 0 <= width (solid 45 70 red) /\ 0 <= height (solid 45 70 red) /\
  exists image',
    prep_image (solid 45 70 red) 20 = ok image' /\
    prep_image image' 20 = ok image'.
Proof.
  split; [lia | split; [simpl; lia | split; [simpl; lia |]]].
  apply (prep_image_idempotent (solid 45 70 red) 20);
    [lia | simpl; lia | simpl; lia].
Defined.

Lemma negative_even_tile_size_no_tiles_at_minus_4 :
  -4 < 0 /\ (-4) mod 2 = 0 /\
  0 <= width (solid 5 8 red) /\ 0 <= height (solid 5 8 red) /\
  exists image',
    prep_image (solid 5 8 red) (-4) = ok image' /\
    triangulize no_draw (solid 5 8 red) (PyInt (-4)) = (ok image', []) /\
    (width image' mod -4 = 0 /\
     width (solid 5 8 red) <= width image' < width (solid 5 8 red) - -4) /\
    (height image' mod -4 = 0 /\
     height (solid 5 8 red) <= height image'
       < height (solid 5 8 red) - -4) /\
    (forall x y,
       in_bounds image' x y = true ->
       getdata image' x y
       = if in_bounds (solid 5 8 red) x y
         then getdata (solid 5 8 red) x y else (0, 0, 0)).
Proof.
  split; [lia | split; [reflexivity | split; [simpl; lia | split]]].
  - simpl; lia.
  - apply (negative_even_tile_size_no_tiles no_draw (solid 5 8 red) (-4));
      [lia | reflexivity | simpl; lia | simpl; lia].
Defined.


Lemma process_tile_fills_within_pixel_range_at_origin :
  4 <= 4 /\ 4 mod 2 = 0 /\ 0 <= 0 /\
  0 + 4 <= width (buffer (mkState (solid 4 4 red) [])) /\
  0 + 4 <= height (buffer (mkState (solid 4 4 red) [])) /\
  (forall p, In p (read_order 0 0 4) ->
             color_between red red
               (getdata (buffer (mkState (solid 4 4 red) [])) (fst p) (snd p))) /\
  exists xy1 xy2 top bottom st',
    process_tile no_draw 0 0 4 (mkState (solid 4 4 red) []) = (ok tt, st') /\
    filter is_polygon (trace st')
    = filter is_polygon (trace (mkState (solid 4 4 red) []))
      ++ [Polygon xy1 (make_color top); Polygon xy2 (make_color bottom)] /\
    color_between red red top /\ color_between red red bottom.
Proof.
  assert (H : forall p, In p (read_order 0 0 4) ->
                color_between red red
                  (getdata (buffer (mkState (solid 4 4 red) []))
                     (fst p) (snd p))).
  { intros p _. unfold color_between, red_of, green_of, blue_of; simpl. lia. }
  split; [lia | split; [reflexivity | split; [lia | split; [simpl; lia |]]]].
  split; [simpl; lia | split; [exact H |]].
  apply (process_tile_fills_within_pixel_range no_draw
           (mkState (solid 4 4 red) []) 0 0 4 red red);
    [lia | reflexivity | lia | lia | simpl; lia | simpl; lia | exact H].
Defined.

Lemma triangulize_succeeds_at_9x4 :
  keeps_size no_draw /\
  0 <= width (solid 9 4 red) /\ 0 <= height (solid 9 4 red) /\
  4 <= 4 /\ 4 mod 2 = 0 /\
  exists image' events,
    triangulize no_draw (solid 9 4 red) (PyInt 4) = (ok image', events) /\
    width image' = width (solid 9 4 red) / 4 * 4 /\
    height image' = height (solid 9 4 red) / 4 * 4 /\
    Z.of_nat (length events)
    = width (solid 9 4 red) / 4 * (height (solid 9 4 red) / 4) * (4 * 4 + 2) /\
    Z.of_nat (length (filter is_polygon events))
    = 2 * (width (solid 9 4 red) / 4 * (height (solid 9 4 red) / 4)).
Proof.
  assert (H : keeps_size no_draw) by (intros xy fill im; split; reflexivity).
  split; [exact H | split; [simpl; lia | split; [simpl; lia |]]].
  split; [lia | split; [reflexivity |]].
  apply (triangulize_succeeds no_draw (solid 9 4 red) 4);
    [exact H | simpl; lia | simpl; lia | lia | reflexivity].
Defined.

Lemma tile_size_2_always_fails_at_5x3 :
  2 <= width (solid 5 3 red) /\ 2 <= height (solid 5 3 red) /\
  exists image',
    prep_image (solid 5 3 red) 2 = ok image' /\
    triangulize no_draw (solid 5 3 red) (PyInt 2)
    = (raise TypeError,
       [PixelRead 0 0; PixelRead 1 0; PixelRead 0 0; PixelRead 0 1]).
Proof.
  split; [simpl; lia | split; [simpl; lia |]].
  apply (tile_size_2_always_fails no_draw (solid 5 3 red));
    [simpl; lia | simpl; lia].
Defined.

Lemma even_int_checks_less_than_assertion_at_2_63 :
  (fun _ : string => ok (PyLong 9223372036854775808)) "9223372036854775808"%string
  = ok (PyLong 9223372036854775808) /\
  (even_int (fun _ => ok (PyLong 9223372036854775808)) "9223372036854775808"
   = inr (PyLong 9223372036854775808) <->
   value (PyLong 9223372036854775808) mod 2 = 0) /\
  (even_int (fun _ => ok (PyLong 9223372036854775808)) "9223372036854775808"
   = inl (ArgumentTypeError "must be an even number") <->
   value (PyLong 9223372036854775808) mod 2 <> 0) /\
  (fst (triangulize no_draw (solid 4 4 red) (PyLong 9223372036854775808))
   = raise AssertionError <->
   isinstance_int (PyLong 9223372036854775808) = false \/
   value (PyLong 9223372036854775808) mod 2 <> 0) /\
  (isinstance_int (PyLong 9223372036854775808) = true ->
   (even_int (fun _ => ok (PyLong 9223372036854775808)) "9223372036854775808"
    = inr (PyLong 9223372036854775808) <->
    fst (triangulize no_draw (solid 4 4 red) (PyLong 9223372036854775808))
    <> raise AssertionError)) /\
  (isinstance_int (PyLong 9223372036854775808) = false ->
   value (PyLong 9223372036854775808) mod 2 = 0 ->
   even_int (fun _ => ok (PyLong 9223372036854775808)) "9223372036854775808"
   = inr (PyLong 9223372036854775808) /\
   triangulize no_draw (solid 4 4 red) (PyLong 9223372036854775808)
   = (raise AssertionError, [])).
Proof.
  split; [reflexivity |].
  apply (even_int_checks_less_than_assertion
           (fun _ => ok (PyLong 9223372036854775808)) no_draw
           "9223372036854775808" (PyLong 9223372036854775808)
           (solid 4 4 red)).
  reflexivity.
Defined.

Lemma triangle_colors_averages_regions_at_origin :
  4 <= 4 /\ 4 mod 2 = 0 /\ 0 <= 0 /\
  0 + 4 <= width (buffer (mkState (solid 4 4 red) [])) /\
  0 + 4 <= height (buffer (mkState (solid 4 4 red) [])) /\
  exists n e s w,
    get_average_color
      (pixels (buffer (mkState (solid 4 4 red) [])) (north_coords 0 0 4))
    = ok n /\
    get_average_color
      (pixels (buffer (mkState (solid 4 4 red) [])) (east_coords 0 0 4))
    = ok e /\
    get_average_color
      (pixels (buffer (mkState (solid 4 4 red) [])) (south_coords 0 0 4))
    = ok s /\
    get_average_color
      (pixels (buffer (mkState (solid 4 4 red) [])) (west_coords 0 0 4))
    = ok w /\
    triangle_colors 0 0 4 (mkState (solid 4 4 red) [])
    = (ok (n, e, s, w),
       mkState (buffer (mkState (solid 4 4 red) []))
               (trace (mkState (solid 4 4 red) [])
                ++ reads (read_order 0 0 4))).
Proof.
  split; [lia | split; [reflexivity | split; [lia | split; [simpl; lia |]]]].
  split; [simpl; lia |].
  apply (triangle_colors_averages_regions (mkState (solid 4 4 red) []) 0 0 4);
    [lia | reflexivity | lia | lia | simpl; lia | simpl; lia].
Defined.

Lemma draw_triangles_outcomes_at_origin :
  fill_parses red = true /\
  exists xy1 xy2,
    draw_triangles no_draw 0 0 4 Right red red (mkState (solid 4 4 red) [])
    = (ok tt,
       mkState (no_draw xy2 (make_color red)
                  (no_draw xy1 (make_color red)
                     (buffer (mkState (solid 4 4 red) []))))
               (trace (mkState (solid 4 4 red) [])
                ++ [Polygon xy1 (make_color red);
                    Polygon xy2 (make_color red)])) /\
    (4 <> 0 -> 4 <> 1 ->
     forall v,
       In v xy1 /\ In v xy2 <-> v = (0, 0 + 4) \/ v = (0 + 4 - 1, 0)).
Proof.
  assert (H : fill_parses red = true) by reflexivity.
  split; [exact H |].
  exact (proj2 (proj2 (draw_triangles_outcomes no_draw 0 0 4 Right red red
                         (mkState (solid 4 4 red) []))) H H).
Defined.

Lemma triangulize_trace_tile_by_tile_at_9x4 :
  keeps_size no_draw /\
  0 <= width (solid 9 4 red) /\ 0 <= height (solid 9 4 red) /\
  4 <= 4 /\ 4 mod 2 = 0 /\
  exists image0 tiles draws image',
    prep_image (solid 9 4 red) 4 = ok image0 /\
    iter_tiles image0 4 = ok tiles /\
    length draws = length tiles /\
    (forall d, In d draws ->
       is_polygon (fst d) = true /\ is_polygon (snd d) = true) /\
    triangulize no_draw (solid 9 4 red) (PyInt 4)
    = (ok image', flat_map (tile_events 4) (combine tiles draws)).
Proof.
  assert (H : keeps_size no_draw) by (intros xy fill im; split; reflexivity).
  split; [exact H | split; [simpl; lia | split; [simpl; lia |]]].
  split; [lia | split; [reflexivity |]].
  apply (triangulize_trace_tile_by_tile no_draw (solid 9 4 red) 4);
    [exact H | simpl; lia | simpl; lia | lia | reflexivity].
Defined.
